(** * ni.github: the GitHub webhook host of the CLA bot

    A shallow embedding of [src/ni/github.py].  Python values that come
    from decoded JSON are kept as JSON trees, so that every subscript,
    membership test and method call of the source fails in the model
    where it fails in Python.  The coroutines of [Host] are functions in
    a state-and-exception monad whose state holds the instance attribute
    [_labels_url], the remote side of the HTTP session and the log of the
    exchanges made so far. *)

From Stdlib Require Import String Ascii ZArith QArith List Bool Lia.
From Stdlib Require Import DecimalString Permutation.
From Stdlib Require DecimalZ.
Import ListNotations.

Set Warnings "-register-all".

Local Open Scope Z_scope.
Local Open Scope string_scope.
Local Open Scope list_scope.

(** ** Python strings

    A [str] is kept as the bytes of its UTF-8 encoding.  The order of
    two such byte strings is the order of their code points, which is
    how Python compares [str] values, and [startswith] on an ASCII
    prefix is the byte prefix test. *)

Definition startswith (s p : string) : bool := String.prefix p s.

(** A byte 10xxxxxx continues the code point begun before it. *)
Definition is_continuation (c : ascii) : bool :=
  let n := N_of_ascii c in (128 <=? n)%N && (n <? 192)%N.

(** The characters of a [str], as iteration over it yields them. *)
Fixpoint chars (s : string) : list string :=
  match s with
  | EmptyString => []
  | String c rest =>
      match chars rest with
      | [] => [String c EmptyString]
      | hd :: tl =>
          match hd with
          | String d _ =>
              if is_continuation d
              then String c hd :: tl
              else String c EmptyString :: hd :: tl
          | EmptyString => String c EmptyString :: tl
          end
      end
  end.

(** [needle in haystack] for two [str] values. *)
Fixpoint contains_str (haystack needle : string) : bool :=
  String.prefix needle haystack ||
  match haystack with
  | EmptyString => false
  | String _ rest => contains_str rest needle
  end.

(** [str(n)] for an [int]. *)
Definition str_of_int (n : Z) : string := NilZero.string_of_int (Z.to_int n).

(** ** Decoded JSON *)

Inductive json : Type :=
| JNull
| JBool (b : bool)
| JNum (q : Q)
| JStr (s : string)
| JArr (items : list json)
| JObj (fields : list (string * json)).

(** ** Exceptions *)

Inductive Exn : Type :=
| ResponseExit (status : Z) (text : option string)
| HTTPException (msg : string)
| KeyError (key : string)
| TypeError
| AttributeError
| NameError (name : string)
| ValueError
| JSONDecodeError
| ClientError.

Inductive Outcome (A : Type) : Type :=
| Ok (a : A)
| Raise (e : Exn).
Arguments Ok {A} a.
Arguments Raise {A} e.

(** The first binding of [k] in a [dict] listed as its items. *)
Fixpoint assoc (k : string) (fields : list (string * json)) : option json :=
  match fields with
  | [] => None
  | (k', v) :: rest => if String.eqb k k' then Some v else assoc k rest
  end.

(** [obj[key]] for a string [key]. *)
Definition getitem (obj : json) (key : string) : Outcome json :=
  match obj with
  | JObj fields =>
      match assoc key fields with
      | Some v => Ok v
      | None => Raise (KeyError key)
      end
  | _ => Raise TypeError
  end.

(** [a == b] on the values a [set] can hold: [None], [bool], numbers and
    [str]; a [bool] compares as the number 0 or 1. *)
Definition as_number (v : json) : option Q :=
  match v with
  | JBool true => Some 1%Q
  | JBool false => Some 0%Q
  | JNum q => Some q
  | _ => None
  end.

Definition py_eq (a b : json) : bool :=
  match a, b with
  | JNull, JNull => true
  | JStr x, JStr y => String.eqb x y
  | _, _ =>
      match as_number a, as_number b with
      | Some p, Some q => Qeq_bool p q
      | _, _ => false
      end
  end.

Definition hashable (v : json) : bool :=
  match v with
  | JArr _ | JObj _ => false
  | _ => true
  end.

(** [key in obj] for a string [key]: a key of a [dict], an element of a
    [list], a substring of a [str]; other values are not iterable. *)
Definition contains (obj : json) (key : string) : Outcome bool :=
  match obj with
  | JObj fields =>
      Ok (match assoc key fields with Some _ => true | None => false end)
  | JArr items => Ok (existsb (py_eq (JStr key)) items)
  | JStr s => Ok (contains_str s key)
  | _ => Raise TypeError
  end.

(** The values a [for] loop over [obj] sees. *)
Definition iterate (obj : json) : Outcome (list json) :=
  match obj with
  | JArr items => Ok items
  | JObj fields => Ok (map (fun kv => JStr (fst kv)) fields)
  | JStr s => Ok (map JStr (chars s))
  | _ => Raise TypeError
  end.

(** ** Sets of hashable values

    A [set] is listed without repetition (up to [==]) in the order its
    members were first added. *)

Definition pyset := list json.

Definition set_in (x : json) (s : pyset) : bool := existsb (py_eq x) s.

Definition set_add (x : json) (s : pyset) : Outcome pyset :=
  if hashable x
  then Ok (if set_in x s then s else s ++ [x])
  else Raise TypeError.

(** A [frozenset] offers membership and iteration and no update. *)
Record frozenset : Type := Frozen { members : pyset }.

(** ** Sorting *)

Fixpoint insert_sorted (x : string) (l : list string) : list string :=
  match l with
  | [] => [x]
  | y :: rest =>
      if String.leb x y then x :: l else y :: insert_sorted x rest
  end.

(** [sorted(l)] for a list of [str]. *)
Definition sorted (l : list string) : list string :=
  fold_right insert_sorted [] l.

(** ** Constants of the module *)

Definition LABEL_PREFIX : string := "CLA: ".
Definition CLA_OK : string := (LABEL_PREFIX ++ "☑")%string.
Definition NO_CLA : string := (LABEL_PREFIX ++ "☐")%string.

Definition dquote : string := String (ascii_of_nat 34) EmptyString.

(** [NO_CLA_TEMPLATE.format(body=body)] *)
Definition NO_CLA_TEMPLATE (body : string) : string :=
  ("Hello, and thanks for your contribution!

" ++ body ++ "

Once you have done everything that's needed, please reply here and someone will
verify everything is in order.

Also, please read the
[Python's Developer Guide](https://docs.python.org/devguide/) if you have not
already.
")%string.

Definition NO_CLA_BODY : string :=
  "Unfortunately our records indicate you have not signed a
[PSF contributor agreement](https://www.python.org/psf/contrib/contrib-form/)
(CLA). For legal reasons we need you to sign this before we can look at your
contribution.".

Definition NO_USERNAME_BODY : string :=
  ("Unfortunately we couldn't find an account corresponding
to your GitHub username at [bugs.python.org](http://bugs.python.org/) (b.p.o).
If you don't already have an account at b.p.o, please
[create one](http://bugs.python.org/user?@template=register) and make sure to
add your GitHub username. If you do already have an account at b.p.o then
please go there and under " ++ dquote ++ "Your Details" ++ dquote ++
  " add your GitHub username.

And in case you haven't already, please make sure to sign the
[PSF contributor agreement](https://www.python.org/psf/contrib/contrib-form/)
(CLA); we can't legally look at your contribution until you have signed the
CLA.")%string.

Inductive PullRequestEvent : Type :=
| assigned
| unassigned
| labeled
| unlabeled
| opened
| closed
| reopened
| synchronize.

(** [PullRequestEvent.x.value] *)
Definition value (e : PullRequestEvent) : string :=
  match e with
  | assigned => "assigned"
  | unassigned => "unassigned"
  | labeled => "labeled"
  | unlabeled => "unlabeled"
  | opened => "opened"
  | closed => "closed"
  | reopened => "reopened"
  | synchronize => "synchronize"
  end.

(** Modelled from the spec: the enumeration [abc.Status] of the module
    [ni/abc.py], which the sources at hand do not include; the spec's
    CLAStatus has exactly these three verdicts. *)
Inductive Status : Type :=
| signed
| not_signed
| username_not_found.

Definition is_signed (s : Status) : bool :=
  match s with signed => true | _ => false end.

(** [http.HTTPStatus] *)
Definition UNSUPPORTED_MEDIA_TYPE : Z := 415.
Definition NO_CONTENT : Z := 204.

(** ** The inbound request and the outbound session

    Both are collaborators of the module.  The inbound request offers
    its content type and the decoding of its body; [None] stands for a
    body that does not decode. *)

Record WebRequest : Type := {
  content_type : string;
  json_body : option json
}.

(** The calls [Host] makes on [abc.session()].  The URL is whatever
    Python value the caller passes; the body of a POST is listed as the
    JSON value whose UTF-8 serialisation is sent. *)
Inductive Call : Type :=
| GET (url : json)
| POST (url : json) (data : json) (content_type_header : string)
| DELETE (url : json).

Record Response : Type := {
  status : Z;
  body : option json
}.

(** The remote side: it answers a call with a response, or the client
    raises without one, and it may change by the call. *)
Class Session (Net : Type) : Type := {
  send : Call -> Net -> Outcome Response * Net
}.

(** The two functions of Python's library that build the label URL:
    [template.format_map({'/name': v})] and [urllib.parse.quote]. *)
Class UrlLib : Type := {
  format_map : string -> string -> Outcome string;
  quote : string -> string
}.

Definition Exchange : Type := Call * Outcome Response.

(** What one [Host] instance runs against: its attribute [_labels_url]
    (absent until first set), the remote side, and the exchanges made. *)
Record State (Net : Type) : Type := {
  _labels_url : option json;
  remote : Net;
  log : list Exchange
}.
Arguments _labels_url {Net} s.
Arguments remote {Net} s.
Arguments log {Net} s.
Arguments Build_State {Net} _ _ _.

(** ** The monad of the coroutines *)

Definition M (Net A : Type) : Type := State Net -> Outcome A * State Net.

Definition ret {Net A} (a : A) : M Net A := fun st => (Ok a, st).

Definition raise {Net A} (e : Exn) : M Net A := fun st => (Raise e, st).

Definition bind {Net A B} (m : M Net A) (k : A -> M Net B) : M Net B :=
  fun st =>
    match m st with
    | (Ok a, st') => k a st'
    | (Raise e, st') => (Raise e, st')
    end.

Definition lift {Net A} (o : Outcome A) : M Net A := fun st => (o, st).

Notation "x <- m ;; k" := (bind m (fun x => k))
  (at level 61, m at next level, right associativity).
Notation "m ;;; k" := (bind m (fun _ => k))
  (at level 61, right associativity).

(** One exchange with the remote side, logged. *)
Definition exchange {Net} `{Session Net} (c : Call) : M Net Response :=
  fun st =>
    let (r, net') := send c (remote st) in
    (r, Build_State (_labels_url st) net' (log st ++ [(c, r)])).

(** [hasattr(self, '_labels_url')] with the value when present. *)
Definition getattr_labels_url {Net} : M Net (option json) :=
  fun st => (Ok (_labels_url st), st).

(** [self._labels_url = v] *)
Definition setattr_labels_url {Net} (v : json) : M Net unit :=
  fun st => (Ok tt, Build_State (Some v) (remote st) (log st)).

(** [await request.json()] *)
Definition request_json {Net} (request : WebRequest) : M Net json :=
  match json_body request with
  | Some payload => ret payload
  | None => raise JSONDecodeError
  end.

(** [await response.json()] *)
Definition response_json {Net} (response : Response) : M Net json :=
  match body response with
  | Some data => ret data
  | None => raise JSONDecodeError
  end.

(** [x in s] for a set [s]: [x] is hashed first. *)
Definition set_contains (x : json) (s : pyset) : Outcome bool :=
  if hashable x then Ok (set_in x s) else Raise TypeError.

(** [v.startswith(p)]: only a [str] has the method. *)
Definition startswith_method (v : json) (p : string) : Outcome bool :=
  match v with
  | JStr s => Ok (startswith s p)
  | _ => Raise AttributeError
  end.

(** ** class Host *)

Record Host : Type := {
  event : PullRequestEvent;
  request : json
}.

Definition _useful_actions : pyset :=
  [JStr (value opened); JStr (value unlabeled); JStr (value synchronize)].

Section HostMethods.

Context {Net : Type} `{Session Net} `{UrlLib}.

Definition process (req : WebRequest) : M Net Host :=
  if negb (String.eqb (content_type req) "application/json") then
    let msg :=
      ("can only accept application/json, not " ++ content_type req)%string in
    raise (ResponseExit UNSUPPORTED_MEDIA_TYPE (Some msg))
  else
    payload <- request_json req ;;
    ping <- lift (contains payload "zen") ;;
    if ping then raise (ResponseExit NO_CONTENT None)
    else
      action <- lift (getitem payload "action") ;;
      useful <- lift (set_contains action _useful_actions) ;;
      if negb useful then raise (ResponseExit NO_CONTENT None)
      else if py_eq action (JStr (value opened)) then
        ret (Build_Host opened payload)
      else if py_eq action (JStr (value unlabeled)) then
        label_obj <- lift (getitem payload "label") ;;
        label <- lift (getitem label_obj "name") ;;
        cla <- lift (startswith_method label LABEL_PREFIX) ;;
        if negb cla then raise (ResponseExit NO_CONTENT None)
        else ret (Build_Host unlabeled payload)
      else if py_eq action (JStr (value synchronize)) then
        ret (Build_Host synchronize payload)
      else raise TypeError.

Definition check_response (response : Response) : M Net unit :=
  if status response >=? 300 then
    let msg :=
      ("unexpected response: " ++ str_of_int (status response))%string in
    raise (HTTPException msg)
  else ret tt.

Definition get (url : json) : M Net json :=
  response <- exchange (GET url) ;;
  check_response response ;;;
  response_json response.

Definition post (url : json) (payload : json) : M Net unit :=
  let encoding := "utf-8" in
  let header := ("application/json; charset=" ++ encoding)%string in
  response <- exchange (POST url payload header) ;;
  check_response response.

Definition delete (url : json) : M Net unit :=
  response <- exchange (DELETE url) ;;
  check_response response.

(** The body of the loop of [usernames]. *)
Definition add_commit (logins : pyset) (commit : json) : Outcome pyset :=
  match getitem commit "author" with
  | Raise e => Raise e
  | Ok author =>
      match getitem author "login" with
      | Raise e => Raise e
      | Ok author_login =>
          match set_add author_login logins with
          | Raise e => Raise e
          | Ok logins1 =>
              match getitem commit "committer" with
              | Raise e => Raise e
              | Ok committer =>
                  match getitem committer "login" with
                  | Raise e => Raise e
                  | Ok committer_login => set_add committer_login logins1
                  end
              end
          end
      end
  end.

Fixpoint add_commits (logins : pyset) (commits : list json) : Outcome pyset :=
  match commits with
  | [] => Ok logins
  | commit :: rest =>
      match add_commit logins commit with
      | Ok logins' => add_commits logins' rest
      | Raise e => Raise e
      end
  end.

Definition usernames (self : Host) : M Net frozenset :=
  pull_request <- lift (getitem (request self) "pull_request") ;;
  user <- lift (getitem pull_request "user") ;;
  login <- lift (getitem user "login") ;;
  logins <- lift (set_add login []) ;;
  commits_url <- lift (getitem pull_request "commits_url") ;;
  commits <- get commits_url ;;
  items <- lift (iterate commits) ;;
  logins <- lift (add_commits logins items) ;;
  ret (Frozen logins).

Definition labels_url (self : Host) (label : option string) : M Net string :=
  cached <- getattr_labels_url ;;
  template <-
    match cached with
    | Some t => ret t
    | None =>
        pull_request <- lift (getitem (request self) "pull_request") ;;
        issue_url <- lift (getitem pull_request "issue_url") ;;
        issue_data <- get issue_url ;;
        t <- lift (getitem issue_data "labels_url") ;;
        setattr_labels_url t ;;;
        ret t
    end ;;
  let quoted_label :=
    match label with
    | Some l => ("/" ++ quote l)%string
    | None => ""
    end in
  match template with
  | JStr t => lift (format_map t quoted_label)
  | _ => raise AttributeError
  end.

(** The names that pass the filter of [current_label], in the order the
    labels come; each label is subscripted and tested in its turn. *)
Fixpoint cla_names (labels : list json) : Outcome (list string) :=
  match labels with
  | [] => Ok []
  | x :: rest =>
      match getitem x "name" with
      | Raise e => Raise e
      | Ok name =>
          match name with
          | JStr s =>
              match cla_names rest with
              | Raise e => Raise e
              | Ok names =>
                  Ok (if startswith s LABEL_PREFIX then s :: names else names)
              end
          | _ => Raise AttributeError
          end
      end
  end.

Definition current_label (self : Host) : M Net (option string) :=
  url <- labels_url self None ;;
  data <- get (JStr url) ;;
  all_labels <- lift (iterate data) ;;
  cla_labels <- lift (cla_names all_labels) ;;
  let cla_labels := sorted cla_labels in
  ret (match cla_labels with
       | first :: _ => Some first
       | [] => None
       end).

Definition set_label (self : Host) (st : Status) : M Net string :=
  url <- labels_url self None ;;
  if is_signed st then
    post (JStr url) (JArr [JStr CLA_OK]) ;;;
    ret CLA_OK
  else
    post (JStr url) (JArr [JStr NO_CLA]) ;;;
    ret NO_CLA.

Definition remove_label (self : Host) : M Net (option string) :=
  cla_label <- current_label self ;;
  match cla_label with
  | None => ret None
  | Some l =>
      deletion_url <- labels_url self (Some l) ;;
      delete (JStr deletion_url) ;;;
      ret (Some l)
  end.

(** The text [comment] chooses; [signed] has none. *)
Definition message_for (st : Status) : option string :=
  match st with
  | signed => None
  | not_signed => Some (NO_CLA_TEMPLATE NO_CLA_BODY)
  | username_not_found => Some (NO_CLA_TEMPLATE NO_USERNAME_BODY)
  end.

Definition comment (self : Host) (st : Status) : M Net (option string) :=
  pull_request <- lift (getitem (request self) "pull_request") ;;
  comments_url <- lift (getitem pull_request "comments_url") ;;
  match message_for st with
  | None => ret None
  | Some message =>
      post comments_url (JObj [("body", JStr message)]) ;;;
      ret (Some message)
  end.

Definition label_differs (current : option string) (target : string) : bool :=
  match current with
  | Some l => negb (String.eqb l target)
  | None => true
  end.

Definition update (self : Host) (st : Status) : M Net unit :=
  match event self with
  | opened =>
      set_label self st ;;;
      comment self st ;;;
      ret tt
  | unlabeled =>
      set_label self st ;;;
      ret tt
  | synchronize =>
      current <- current_label self ;;
      if is_signed st then
        if label_differs current CLA_OK then
          remove_label self ;;;
          ret tt
        else ret tt
      else if label_differs current NO_CLA then
        remove_label self ;;;
        comment self st ;;;
        ret tt
      else ret tt
  | _ => raise (NameError "RunimeError")
  end.

End HostMethods.

(** ** The GitHub side

    The issue, label, comment and commit endpoints of one pull request,
    as the module uses them: the issue resource carries the label URL
    template, the label collection lists and takes label names, a label
    is deleted at its own URL, and comments are appended. *)

Record GitHub : Type := {
  gh_issue_url : string;
  gh_labels_url : string;
  gh_comments_url : string;
  gh_commits_url : string;
  gh_commits : json;
  gh_labels : list string;
  gh_comments : list json
}.

Definition with_labels (gh : GitHub) (labels : list string) : GitHub :=
  {| gh_issue_url := gh_issue_url gh;
     gh_labels_url := gh_labels_url gh;
     gh_comments_url := gh_comments_url gh;
     gh_commits_url := gh_commits_url gh;
     gh_commits := gh_commits gh;
     gh_labels := labels;
     gh_comments := gh_comments gh |}.

Definition with_comment (gh : GitHub) (c : json) : GitHub :=
  {| gh_issue_url := gh_issue_url gh;
     gh_labels_url := gh_labels_url gh;
     gh_comments_url := gh_comments_url gh;
     gh_commits_url := gh_commits_url gh;
     gh_commits := gh_commits gh;
     gh_labels := gh_labels gh;
     gh_comments := gh_comments gh ++ [c] |}.

Definition respond (code : Z) (data : json) : Outcome Response :=
  Ok {| status := code; body := Some data |}.

Definition label_object (name : string) : json := JObj [("name", JStr name)].

(** The names in the body of a POST to the label collection. *)
Fixpoint posted_names (items : list json) : option (list string) :=
  match items with
  | [] => Some []
  | JStr s :: rest =>
      match posted_names rest with
      | Some names => Some (s :: names)
      | None => None
      end
  | _ :: _ => None
  end.

Fixpoint add_labels (labels names : list string) : list string :=
  match names with
  | [] => labels
  | n :: rest =>
      add_labels (if existsb (String.eqb n) labels then labels
                  else labels ++ [n]) rest
  end.

Section GitHubSide.

Context `{UrlLib}.

(** The URL of the label collection and of one label. *)
Definition collection_url (gh : GitHub) : Outcome string :=
  format_map (gh_labels_url gh) "".

Definition label_url (gh : GitHub) (name : string) : Outcome string :=
  format_map (gh_labels_url gh) ("/" ++ quote name)%string.

Definition is_url (o : Outcome string) (url : string) : bool :=
  match o with
  | Ok u => String.eqb u url
  | Raise _ => false
  end.

Definition github_get (url : string) (gh : GitHub) : Outcome Response :=
  if String.eqb url (gh_issue_url gh) then
    respond 200 (JObj [("labels_url", JStr (gh_labels_url gh))])
  else if is_url (collection_url gh) url then
    respond 200 (JArr (map label_object (gh_labels gh)))
  else if String.eqb url (gh_commits_url gh) then
    respond 200 (gh_commits gh)
  else respond 404 JNull.

Definition github_post (url : string) (data : json) (gh : GitHub)
  : Outcome Response * GitHub :=
  if is_url (collection_url gh) url then
    match data with
    | JArr items =>
        match posted_names items with
        | Some names =>
            let labels := add_labels (gh_labels gh) names in
            (respond 200 (JArr (map label_object labels)),
             with_labels gh labels)
        | None => (respond 422 JNull, gh)
        end
    | _ => (respond 422 JNull, gh)
    end
  else if String.eqb url (gh_comments_url gh) then
    (respond 201 data, with_comment gh data)
  else (respond 404 JNull, gh).

Definition github_delete (url : string) (gh : GitHub)
  : Outcome Response * GitHub :=
  let hit := fun name => is_url (label_url gh name) url in
  if existsb hit (gh_labels gh) then
    let labels := filter (fun name => negb (hit name)) (gh_labels gh) in
    (respond 200 (JArr (map label_object labels)), with_labels gh labels)
  else (respond 404 JNull, gh).

Definition github_send (c : Call) (gh : GitHub) : Outcome Response * GitHub :=
  match c with
  | GET (JStr url) => (github_get url gh, gh)
  | POST (JStr url) data _ => github_post url data gh
  | DELETE (JStr url) => github_delete url gh
  | _ => (Raise TypeError, gh)
  end.

#[export] Instance github_session : Session GitHub := {| send := github_send |}.

End GitHubSide.

(** ** A runnable library instance

    Percent-encoding as [urllib.parse.quote] does it with its default
    safe set, and the fragment of [format_map] for templates whose only
    replacement field is [{/name}]. *)

Module Py.

Definition hex_digit (n : N) : ascii :=
  ascii_of_N (if (n <? 10)%N then 48 + n else 55 + n)%N.

Definition unreserved (c : ascii) : bool :=
  let n := N_of_ascii c in
  ((48 <=? n) && (n <=? 57) || (65 <=? n) && (n <=? 90) ||
   (97 <=? n) && (n <=? 122))%N ||
  existsb (Ascii.eqb c) (list_ascii_of_string "_.-~/").

Fixpoint quote (s : string) : string :=
  match s with
  | EmptyString => EmptyString
  | String c rest =>
      if unreserved c then String c (quote rest)
      else
        let n := N_of_ascii c in
        String "%" (String (hex_digit (n / 16)) (String (hex_digit (n mod 16))
          (quote rest)))
  end.

(** [skip] counts the characters of a field still to pass over. *)
Fixpoint format_from (skip : nat) (template v : string) : Outcome string :=
  match template with
  | EmptyString => Ok EmptyString
  | String c rest =>
      match skip with
      | S k => format_from k rest v
      | O =>
          if String.prefix "{/name}" template then
            match format_from 6 rest v with
            | Ok tail => Ok (v ++ tail)%string
            | Raise e => Raise e
            end
          else if Ascii.eqb c "{" || Ascii.eqb c "}" then Raise ValueError
          else
            match format_from 0 rest v with
            | Ok tail => Ok (String c tail)
            | Raise e => Raise e
            end
      end
  end.

Definition format_map (template v : string) : Outcome string :=
  format_from 0 template v.

#[export] Instance urllib : UrlLib := Build_UrlLib format_map quote.

End Py.

(** ** A pull request to run the model on *)

Module Demo.

Import Py.

Definition pr_url : string := "https://api.github.com/repos/o/r".

Definition repository (commits : list json) (labels : list string) : GitHub :=
  {| gh_issue_url := (pr_url ++ "/issues/1")%string;
     gh_labels_url := (pr_url ++ "/issues/1/labels{/name}")%string;
     gh_comments_url := (pr_url ++ "/issues/1/comments")%string;
     gh_commits_url := (pr_url ++ "/pulls/1/commits")%string;
     gh_commits := JArr commits;
     gh_labels := labels;
     gh_comments := [] |}.

Definition commit (author committer : string) : json :=
  JObj [("author", JObj [("login", JStr author)]);
        ("committer", JObj [("login", JStr committer)])].

Definition two_commits : list json :=
  [commit "miss-islington" "web-flow"; commit "brettcannon" "web-flow"].

Definition github (labels : list string) : GitHub :=
  repository two_commits labels.

Definition pull_request : json :=
  JObj [("user", JObj [("login", JStr "brettcannon")]);
        ("issue_url", JStr (pr_url ++ "/issues/1"));
        ("comments_url", JStr (pr_url ++ "/issues/1/comments"));
        ("commits_url", JStr (pr_url ++ "/pulls/1/commits"))].

Definition payload (action : string) : json :=
  JObj [("action", JStr action);
        ("label", JObj [("name", JStr CLA_OK)]);
        ("pull_request", pull_request)].

Definition host (e : PullRequestEvent) : Host :=
  {| event := e; request := payload (value e) |}.

Definition start (labels : list string) : State GitHub :=
  Build_State None (github labels) [].

(** A pull request without commits yet. *)
Definition empty_start : State GitHub :=
  Build_State None (repository [] []) [].

Definition delivery (content : string) (data : json) : WebRequest :=
  {| content_type := content; json_body := Some data |}.

End Demo.

(** ** The CLA status aggregator *)

Definition is_not_found (s : Status) : bool :=
  match s with username_not_found => true | _ => false end.

Definition is_not_signed (s : Status) : bool :=
  match s with not_signed => true | _ => false end.

(** Modelled from the spec: the reduction of the CLA Status Aggregator,
    whose code (the CLA-records host) is not among the sources at hand.
    The spec's rule, in its order of precedence: any verdict
    [username_not_found] gives [username_not_found]; else any verdict
    [not_signed] gives [not_signed]; else [signed]. *)
Definition reduce (verdicts : list Status) : Status :=
  if existsb is_not_found verdicts then username_not_found
  else if existsb is_not_signed verdicts then not_signed
  else signed.

(** Modelled from the spec: the aggregator maps each username through
    the external lookup and reduces the verdicts. *)
Definition aggregate (lookup : string -> Status) (names : list string)
  : Status :=
  reduce (map lookup names).

(** ** Notions used in the statements *)

(** [obj[k1][k2]...] *)
Fixpoint getpath (obj : json) (keys : list string) : Outcome json :=
  match keys with
  | [] => Ok obj
  | k :: rest =>
      match getitem obj k with
      | Ok v => getpath v rest
      | Raise e => Raise e
      end
  end.

(** The calls that change the pull request. *)
Definition is_mutation (x : Exchange) : bool :=
  match fst x with
  | GET _ => false
  | POST _ _ _ | DELETE _ => true
  end.

Definition mutations (l : list Exchange) : list Call :=
  map fst (filter is_mutation l).

(** The exception [check_response] raises for a response. *)
Definition transport_error (r : Response) : Exn :=
  HTTPException ("unexpected response: " ++ str_of_int (status r))%string.

(** The state after one logged exchange. *)
Definition logged {Net} (st : State Net) (c : Call) (r : Outcome Response)
  (net' : Net) : State Net :=
  Build_State (_labels_url st) net' (log st ++ [(c, r)]).

(** An exchange that does not end in a status of 300 or more. *)
Definition accepted (x : Exchange) : Prop :=
  match snd x with
  | Ok r => status r < 300
  | Raise _ => True
  end.

(** A computation that makes no call after a refused one, and raises the
    transport error of the refusal. *)
Definition stops_at_refusal {Net A} (m : M Net A) : Prop :=
  forall st, exists new,
    log (snd (m st)) = log st ++ new /\
    forall pre c r post,
      new = pre ++ (c, Ok r) :: post -> 300 <= status r ->
      post = [] /\ fst (m st) = Raise (transport_error r).

(** The same, in the form that composes: the exchanges made are all
    accepted, or all but the last are and the last one's refusal is what
    the computation raises. *)
Definition disciplined {Net A} (m : M Net A) : Prop :=
  forall st, exists new,
    log (snd (m st)) = log st ++ new /\
    (Forall accepted new \/
     exists pre c r,
       new = pre ++ [(c, Ok r)] /\ Forall accepted pre /\
       300 <= status r /\ fst (m st) = Raise (transport_error r)).

(** No two members of the listing are equal. *)
Fixpoint distinct (s : pyset) : bool :=
  match s with
  | [] => true
  | x :: rest => negb (set_in x rest) && distinct rest
  end.

(** [commit[role]['login']] *)
Definition login_of (commit : json) (role : string) : Outcome json :=
  getpath commit [role; "login"].

(** A commit whose author and committer both carry a hashable login. *)
Definition attributed (commit : json) : Prop :=
  exists a c,
    login_of commit "author" = Ok a /\ hashable a = true /\
    login_of commit "committer" = Ok c /\ hashable c = true.

(** The CLA-related labels among the labels of a pull request, and the
    one [current_label] reports for them. *)
Definition cla_labels_of (labels : list string) : list string :=
  filter (fun l => startswith l LABEL_PREFIX) labels.

Definition first_cla (labels : list string) : option string :=
  match sorted (cla_labels_of labels) with
  | first :: _ => Some first
  | [] => None
  end.

(** The head of the list is below all its elements. *)
Definition headed (l : list string) : Prop :=
  match l with
  | [] => True
  | h :: _ => forall y, In y l -> String.leb h y = true
  end.

(** The label that stands for a status. *)
Definition target (s : Status) : string :=
  if is_signed s then CLA_OK else NO_CLA.

(** The labels left when the label [current] is taken off. *)
Definition without (current : option string) (labels : list string)
  : list string :=
  match current with
  | Some l => filter (fun name => negb (String.eqb name l)) labels
  | None => labels
  end.

Definition JSON_UTF8 : string := "application/json; charset=utf-8".

(** The three calls that change a pull request. *)
Definition label_post (url label : string) : Call :=
  POST (JStr url) (JArr [JStr label]) JSON_UTF8.

Definition comment_post (gh : GitHub) (message : string) : Call :=
  POST (JStr (gh_comments_url gh)) (JObj [("body", JStr message)]) JSON_UTF8.

Definition label_delete (url : string) : Call := DELETE (JStr url).

(** The comment calls [update] owes a status: none when signed. *)
Definition comment_calls (gh : GitHub) (s : Status) : list Call :=
  match s with
  | signed => []
  | not_signed => [comment_post gh (NO_CLA_TEMPLATE NO_CLA_BODY)]
  | username_not_found => [comment_post gh (NO_CLA_TEMPLATE NO_USERNAME_BODY)]
  end.

(** The pull request once that comment is posted. *)
Definition after_comment (gh : GitHub) (s : Status) : GitHub :=
  match s with
  | signed => gh
  | not_signed =>
      with_comment gh (JObj [("body", JStr (NO_CLA_TEMPLATE NO_CLA_BODY))])
  | username_not_found =>
      with_comment gh
        (JObj [("body", JStr (NO_CLA_TEMPLATE NO_USERNAME_BODY))])
  end.

(** The host's payload points at this pull request. *)
Definition targets (self : Host) (gh : GitHub) : Prop :=
  getpath (request self) ["pull_request"; "issue_url"]
    = Ok (JStr (gh_issue_url gh)) /\
  getpath (request self) ["pull_request"; "comments_url"]
    = Ok (JStr (gh_comments_url gh)).

(** The attribute [_labels_url] is absent, or holds what the issue
    resource gives. *)
Definition attached (st : State GitHub) : Prop :=
  _labels_url st = None \/
  _labels_url st = Some (JStr (gh_labels_url (remote st))).

(** Every CLA-related label is one of the two canonical ones. *)
Definition canonical (labels : list string) : Prop :=
  forall l, In l labels -> startswith l LABEL_PREFIX = true ->
    l = CLA_OK \/ l = NO_CLA.

Section Endpoints.

Context `{UrlLib}.

(** The endpoints of a pull request are told apart by their URLs: the
    label template expands, the label collection is neither the issue
    nor the comment endpoint, and different labels have different
    URLs. *)
Record well_formed (gh : GitHub) : Prop := {
  collection_apart :
    exists u, collection_url gh = Ok u /\
      u <> gh_issue_url gh /\ u <> gh_comments_url gh;
  labels_expand :
    forall l, In l (gh_labels gh) -> exists u, label_url gh l = Ok u;
  labels_apart :
    forall l l', In l (gh_labels gh) -> In l' (gh_labels gh) ->
      label_url gh l = label_url gh l' -> l = l'
}.

(** The delete call for the label [current], if there is one. *)
Definition delete_calls (gh : GitHub) (current : option string) : list Call :=
  match current with
  | Some l =>
      match label_url gh l with
      | Ok u => [label_delete u]
      | Raise _ => []
      end
  | None => []
  end.

(** Idempotence of [update], as the spec words it: a second run right
    after the first makes no mutating call and leaves the pull request as
    the first run left it. *)
Definition second_run_idle (self : Host) (s : Status) (st : State GitHub)
  : Prop :=
  forall st1 st2,
    update self s st = (Ok tt, st1) ->
    update self s st1 = (Ok tt, st2) ->
    (exists new, log st2 = log st1 ++ new /\ mutations new = []) /\
    remote st2 = remote st1.

(** [st'] comes after [st] by exchanges whose mutating calls are
    [calls], and leaves the pull request as [gh']. *)
Definition step (st st' : State GitHub) (calls : list Call) (gh' : GitHub)
  : Prop :=
  remote st' = gh' /\
  _labels_url st' = Some (JStr (gh_labels_url gh')) /\
  exists new, log st' = log st ++ new /\ mutations new = calls.

End Endpoints.

(** The classifier's trigger for "no action", in the words of the spec:
    a ping, an action outside the three useful ones, or an [unlabeled]
    whose removed label lacks the CLA prefix. *)
Definition no_action_needed (payload : json) : Prop :=
  contains payload "zen" = Ok true \/
  (exists a, getitem payload "action" = Ok (JStr a) /\
             ~ In a [value opened; value unlabeled; value synchronize]) \/
  (getitem payload "action" = Ok (JStr (value unlabeled)) /\
   exists n, getpath payload ["label"; "name"] = Ok (JStr n) /\
             startswith n LABEL_PREFIX = false).

(** A payload that carries what the classifier reads: an object with a
    [zen] key, or with a string [action] and, for [unlabeled], the name
    of the removed label. *)
Definition webhook_shaped (payload : json) : Prop :=
  exists fields, payload = JObj fields /\
    (assoc "zen" fields <> None \/
     exists a, assoc "action" fields = Some (JStr a) /\
       (a = value unlabeled ->
        exists n, getpath payload ["label"; "name"] = Ok (JStr n))).

Section Claimed.

Context `{UrlLib}.

(** The classifier's two outcomes, as the spec words them: the 204 exit
    exactly when no action is needed, a [Host] around the payload in all
    remaining cases. *)
Definition classified (req : WebRequest) (payload : json)
  (st : State GitHub) : Prop :=
  (fst (process req st) = Raise (ResponseExit NO_CONTENT None) <->
   no_action_needed payload) /\
  (~ no_action_needed payload ->
   exists e, fst (process req st) = Ok {| event := e; request := payload |}).

End Claimed.

(** ** A scripted session

    A stand-in for the remote side that answers the calls with the
    outcomes it was given, in order, whatever the call; once they are
    used up the client raises. *)

#[global] Instance scripted_session : Session (list (Outcome Response)) :=
  {| send := fun _ script =>
       match script with
       | r :: rest => (r, rest)
       | [] => (Raise ClientError, [])
       end |}.

(** ** Notions used in the further properties *)

(** The exchanges a computation adds to the log, together with its
    outcome, satisfy [R]. *)
Definition emits {Net A} (m : M Net A)
  (R : list Exchange -> Outcome A -> Prop) : Prop :=
  forall st, exists new,
    log (snd (m st)) = log st ++ new /\ R new (fst (m st)).

Definition raised {A} (o : Outcome A) : Prop := exists e, o = Raise e.

(** The value [labels_url] substitutes for the field of the template. *)
Definition quoted_label `{UrlLib} (label : option string) : string :=
  match label with
  | Some l => ("/" ++ quote l)%string
  | None => ""%string
  end.

(** The shapes of the mutating calls. *)
Definition is_label_post (s : Status) (c : Call) : Prop :=
  exists u, c = label_post u (target s).

Definition is_label_delete (c : Call) : Prop :=
  exists u, c = label_delete u.

Definition is_comment_post (s : Status) (c : Call) : Prop :=
  exists url m,
    message_for s = Some m /\
    c = POST url (JObj [("body", JStr m)]) JSON_UTF8.

(** An exchange that is a GET. *)
Definition is_get (x : Exchange) : Prop := exists url, fst x = GET url.

(** An object without the member [key]. *)
Definition assoc_missing (obj : json) (key : string) : Prop :=
  exists fields, obj = JObj fields /\ assoc key fields = None.

(** The commit list [commits] is what the session answers, below 300,
    to the GET of the payload's [commits_url], the payload carries a
    hashable author login, and every commit is attributed. *)
Definition commits_fetched {Net} `{Session Net} (self : Host)
  (st : State Net) (commits : list json) : Prop :=
  exists author url r net',
    getpath (request self) ["pull_request"; "user"; "login"] = Ok author /\
    hashable author = true /\
    getpath (request self) ["pull_request"; "commits_url"] = Ok url /\
    send (GET url) (remote st) = (Ok r, net') /\
    status r < 300 /\
    body r = Some (JArr commits) /\
    Forall attributed commits.

(** The state a new [Host] instance starts from, on the remote side and
    the log as they are: the attribute [_labels_url] is absent. *)
Definition redelivered {Net} (st : State Net) : State Net :=
  Build_State None (remote st) (log st).

(** ** Further cases to run the model on *)

Module Cases.

(** An opened delivery whose payload has no [comments_url]. *)
Definition bare_host : Host :=
  {| event := opened;
     request :=
       JObj [("action", JStr "opened");
             ("pull_request",
              JObj [("issue_url", JStr (Demo.pr_url ++ "/issues/1"))])] |}.

(** A commit whose author has no account. *)
Definition orphan_commit : json :=
  JObj [("author", JNull);
        ("committer", JObj [("login", JStr "web-flow")])].

(** A session that answers the first call with an issue whose
    [labels_url] is null. *)
Definition null_template : Response :=
  {| status := 200; body := Some (JObj [("labels_url", JNull)]) |}.

Definition odd_start : State (list (Outcome Response)) :=
  Build_State None [Ok null_template] [].

(** An unlabeled delivery without the removed label. *)
Definition unlabeled_fields : list (string * json) :=
  [("action", JStr "unlabeled"); ("pull_request", Demo.pull_request)].

End Cases.

(** * Properties *)

(** ** The monad *)

Section Monad.

Context {Net : Type}.

Lemma bind_ok {A B} (m : M Net A) (k : A -> M Net B) st a st' :
  m st = (Ok a, st') -> bind m k st = k a st'.
Proof. intros E. unfold bind. now rewrite E. Qed.

Lemma bind_raise {A B} (m : M Net A) (k : A -> M Net B) st e st' :
  m st = (Raise e, st') -> bind m k st = (Raise e, st').
Proof. intros E. unfold bind. now rewrite E. Qed.

Lemma bind_lift_ok {A B} (a : A) (k : A -> M Net B) st :
  bind (lift (Ok a)) k st = k a st.
Proof. reflexivity. Qed.

Lemma bind_lift_raise {A B} e (k : A -> M Net B) st :
  bind (lift (Raise e)) k st = (Raise e, st).
Proof. reflexivity. Qed.

End Monad.

(** ** Strings *)

Lemma eqb_neq_false (a b : string) : a <> b -> String.eqb a b = false.
Proof. intros N. now apply String.eqb_neq. Qed.

(** ** What the primitive operations raise *)

Lemma getitem_raises obj key e :
  getitem obj key = Raise e -> e = KeyError key \/ e = TypeError.
Proof.
  destruct obj; cbn; try (intros [= <-]; now right).
  destruct (assoc key fields); [discriminate|]. intros [= <-]. now left.
Qed.

Lemma contains_raises obj key e : contains obj key = Raise e -> e = TypeError.
Proof. destruct obj; cbn; congruence. Qed.

Lemma set_contains_raises x s e : set_contains x s = Raise e -> e = TypeError.
Proof. unfold set_contains. destruct (hashable x); congruence. Qed.

Lemma startswith_method_raises v p e :
  startswith_method v p = Raise e -> e = AttributeError.
Proof. destruct v; cbn; congruence. Qed.

Lemma set_add_raises x s e : set_add x s = Raise e -> e = TypeError.
Proof. unfold set_add. destruct (hashable x); congruence. Qed.

Lemma iterate_raises obj e : iterate obj = Raise e -> e = TypeError.
Proof. destruct obj; cbn; congruence. Qed.

(** ** The classifier *)

Ltac name_raised :=
  repeat match goal with
    | E : getitem _ _ = Raise _ |- _ =>
        apply getitem_raises in E; destruct E; subst
    | E : contains _ _ = Raise _ |- _ => apply contains_raises in E; subst
    | E : set_contains _ _ = Raise _ |- _ =>
        apply set_contains_raises in E; subst
    | E : startswith_method _ _ = Raise _ |- _ =>
        apply startswith_method_raises in E; subst
    end.

Ltac other_outcome :=
  name_raised;
  unfold bind, lift, raise, ret, NO_CONTENT, UNSUPPORTED_MEDIA_TYPE; cbn;
  intro; discriminate.

Section Classifier.

Context {Net : Type} `{Session Net} `{UrlLib}.

(** C6: a request whose content type is not application/json is answered
    with the 415 exit and leaves the state as it was: no call is logged,
    no attribute set, nothing constructed.  A request with that content
    type never gets the 415 exit. *)
Theorem process_content_type (req : WebRequest) (st : State Net) :
  (content_type req <> "application/json" ->
   process req st =
     (Raise (ResponseExit UNSUPPORTED_MEDIA_TYPE
               (Some ("can only accept application/json, not "
                      ++ content_type req)%string)), st)) /\
  (content_type req = "application/json" ->
   forall text,
     fst (process req st) <> Raise (ResponseExit UNSUPPORTED_MEDIA_TYPE text)).
Proof.
  split.
  - intros N. unfold process. now rewrite (eqb_neq_false _ _ N).
  - intros E text. unfold process. rewrite E, String.eqb_refl. simpl.
    unfold request_json.
    destruct (json_body req) as [payload|]; [|other_outcome].
    unfold bind, ret, lift, raise.
    destruct (contains payload "zen") as [[|]|e] eqn:Z; try other_outcome.
    destruct (getitem payload "action") as [action|e] eqn:A;
      [|other_outcome].
    destruct (set_contains action _useful_actions) as [[|]|e] eqn:U;
      try other_outcome.
    cbn [negb].
    destruct (py_eq action (JStr "opened")); [other_outcome|].
    destruct (py_eq action (JStr "unlabeled")).
    + destruct (getitem payload "label") as [l|e] eqn:L; [|other_outcome].
      destruct (getitem l "name") as [n|e] eqn:N; [|other_outcome].
      destruct (startswith_method n LABEL_PREFIX) as [[|]|e] eqn:P;
        other_outcome.
    + destruct (py_eq action (JStr "synchronize")); other_outcome.
Qed.

(** What [process] does with a decoded object that has no [zen] key and a
    string [action]. *)
Lemma process_action (req : WebRequest) fields a (st : State Net) :
  content_type req = "application/json" ->
  json_body req = Some (JObj fields) ->
  assoc "zen" fields = None ->
  assoc "action" fields = Some (JStr a) ->
  process req st =
    (if String.eqb a "opened" then
       ret (Build_Host opened (JObj fields))
     else if String.eqb a "unlabeled" then
       label_obj <- lift (getitem (JObj fields) "label") ;;
       label <- lift (getitem label_obj "name") ;;
       cla <- lift (startswith_method label LABEL_PREFIX) ;;
       if negb cla then raise (ResponseExit NO_CONTENT None)
       else ret (Build_Host unlabeled (JObj fields))
     else if String.eqb a "synchronize" then
       ret (Build_Host synchronize (JObj fields))
     else raise (ResponseExit NO_CONTENT None)) st.
Proof.
  intros C B Z A. unfold process, request_json.
  rewrite C, String.eqb_refl, B.
  cbn [negb]. unfold bind at 1. cbn [ret].
  unfold bind at 1. cbn [lift contains]. rewrite Z.
  unfold bind at 1. cbn [lift getitem]. rewrite A.
  unfold bind at 1.
  cbn [lift set_contains hashable set_in existsb _useful_actions value py_eq].
  destruct (String.eqb a "opened"); [reflexivity|].
  destruct (String.eqb a "unlabeled"); [reflexivity|].
  destruct (String.eqb a "synchronize"); reflexivity.
Qed.

(** C5, as amended: for a request of content type application/json whose
    body decodes to an object that has a [zen] key, or a string [action]
    (with the removed label's name when the action is [unlabeled]), the
    classifier changes nothing and makes no call; it exits with 204
    exactly when the payload is a ping, or its action is not one of
    opened, unlabeled, synchronize, or the action is unlabeled and the
    removed label lacks the prefix; in the remaining cases it constructs
    the [Host] of the matching event around the payload. *)
Theorem classifier_outcome (req : WebRequest) (payload : json)
  (st : State Net) :
  content_type req = "application/json" ->
  json_body req = Some payload ->
  webhook_shaped payload ->
  snd (process req st) = st /\
  (fst (process req st) = Raise (ResponseExit NO_CONTENT None) <->
   no_action_needed payload) /\
  (~ no_action_needed payload ->
   exists e, In e [opened; unlabeled; synchronize] /\
     getitem payload "action" = Ok (JStr (value e)) /\
     fst (process req st) = Ok {| event := e; request := payload |}).
Proof.
  intros C B (fields & -> & W).
  destruct (assoc "zen" fields) as [z|] eqn:Z.
  - (* a ping *)
    assert (P : process req st = (Raise (ResponseExit NO_CONTENT None), st)).
    { unfold process, request_json. rewrite C, String.eqb_refl, B.
      cbn [negb]. unfold bind at 1. cbn [ret]. unfold bind at 1. cbn [lift contains].
      now rewrite Z. }
    assert (N : no_action_needed (JObj fields)).
    { left. cbn. now rewrite Z. }
    rewrite P. cbn. repeat split; auto. intros X. now destruct X.
  - destruct W as [W | (a & A & L)]; [congruence|].
    assert (NZ : contains (JObj fields) "zen" <> Ok true).
    { cbn. rewrite Z. discriminate. }
    assert (GA : getitem (JObj fields) "action" = Ok (JStr a)).
    { cbn. now rewrite A. }
    rewrite (process_action req fields a st C B Z A).
    destruct (String.eqb_spec a "opened") as [->|N1].
    { cbn. split; [reflexivity|]. split.
      - split; [discriminate|].
        intros [X | [(a' & X & Y) | (X & _)]].
        + contradiction.
        + rewrite GA in X. injection X as <-. exfalso. apply Y. cbn. auto.
        + rewrite GA in X. discriminate.
      - intros _. exists opened. cbn. auto. }
    destruct (String.eqb_spec a "unlabeled") as [->|N2].
    { destruct (L eq_refl) as (n & G).
      cbn [getpath] in G.
      destruct (getitem (JObj fields) "label") as [l|] eqn:GL;
        [|discriminate].
      destruct (getitem l "name") as [v|] eqn:GN; [|discriminate].
      injection G as ->.
      unfold bind, lift. rewrite ?GL, ?GN. cbn [startswith_method].
      destruct (startswith n LABEL_PREFIX) eqn:P; cbn.
      - split; [reflexivity|]. split.
        + split; [discriminate|].
          intros [X | [(a' & X & Y) | (_ & n' & X & Y)]].
          * contradiction.
          * rewrite GA in X. injection X as <-. exfalso. apply Y. cbn. auto.
          * cbn [getpath] in X. rewrite GL, GN in X. injection X as <-.
            congruence.
        + intros _. exists unlabeled. cbn. auto.
      - assert (N : no_action_needed (JObj fields)).
        { right. right. split; [exact GA|]. exists n. split; [|exact P].
          cbn [getpath]. now rewrite GL, GN. }
        repeat split; auto. intros X. now destruct X. }
    destruct (String.eqb_spec a "synchronize") as [->|N3].
    { cbn. split; [reflexivity|]. split.
      - split; [discriminate|].
        intros [X | [(a' & X & Y) | (X & _)]].
        + contradiction.
        + rewrite GA in X. injection X as <-. exfalso. apply Y. cbn. auto.
        + rewrite GA in X. discriminate.
      - intros _. exists synchronize. cbn. auto. }
    assert (N : no_action_needed (JObj fields)).
    { right. left. exists a. split; [exact GA|]. cbn. intuition congruence. }
    cbn. repeat split; auto. intros X. now destruct X.
Qed.

End Classifier.

(** ** Transport errors *)

Section Transport.

Context {Net : Type} `{Session Net} `{UrlLib}.

Lemma check_response_refused (r : Response) (st : State Net) :
  300 <= status r -> check_response r st = (Raise (transport_error r), st).
Proof.
  intros R. unfold check_response.
  destruct (Z.geb_spec (status r) 300); [reflexivity|lia].
Qed.

Lemma check_response_accepted (r : Response) (st : State Net) :
  status r < 300 -> check_response r st = (Ok tt, st).
Proof.
  intros R. unfold check_response.
  destruct (Z.geb_spec (status r) 300); [lia|reflexivity].
Qed.

Lemma get_refused url (st : State Net) r net' :
  send (GET url) (remote st) = (Ok r, net') -> 300 <= status r ->
  get url st = (Raise (transport_error r), logged st (GET url) (Ok r) net').
Proof.
  intros S R. unfold get, bind, exchange. rewrite S.
  now rewrite check_response_refused.
Qed.

Lemma get_accepted url (st : State Net) r net' :
  send (GET url) (remote st) = (Ok r, net') -> status r < 300 ->
  get url st =
    (match body r with Some data => Ok data | None => Raise JSONDecodeError end,
     logged st (GET url) (Ok r) net').
Proof.
  intros S R. unfold get, bind, exchange. rewrite S.
  rewrite check_response_accepted by assumption.
  unfold response_json. now destruct (body r).
Qed.

Lemma post_refused url data (st : State Net) r net' :
  let c := POST url data "application/json; charset=utf-8" in
  send c (remote st) = (Ok r, net') -> 300 <= status r ->
  post url data st = (Raise (transport_error r), logged st c (Ok r) net').
Proof.
  intros c S R. unfold post, bind, exchange. cbn [String.append].
  fold c. rewrite S. now rewrite check_response_refused.
Qed.

Lemma post_accepted url data (st : State Net) r net' :
  let c := POST url data "application/json; charset=utf-8" in
  send c (remote st) = (Ok r, net') -> status r < 300 ->
  post url data st = (Ok tt, logged st c (Ok r) net').
Proof.
  intros c S R. unfold post, bind, exchange. cbn [String.append].
  fold c. rewrite S. now rewrite check_response_accepted.
Qed.

Lemma delete_refused url (st : State Net) r net' :
  send (DELETE url) (remote st) = (Ok r, net') -> 300 <= status r ->
  delete url st =
    (Raise (transport_error r), logged st (DELETE url) (Ok r) net').
Proof.
  intros S R. unfold delete, bind, exchange. rewrite S.
  now rewrite check_response_refused.
Qed.

Lemma delete_accepted url (st : State Net) r net' :
  send (DELETE url) (remote st) = (Ok r, net') -> status r < 300 ->
  delete url st = (Ok tt, logged st (DELETE url) (Ok r) net').
Proof.
  intros S R. unfold delete, bind, exchange. rewrite S.
  now rewrite check_response_accepted.
Qed.

(** *** No call follows a refusal *)

Lemma disciplined_silent {A} (m : M Net A) :
  (forall st, log (snd (m st)) = log st) -> disciplined m.
Proof.
  intros S st. exists []. rewrite app_nil_r. split; [apply S|]. now left.
Qed.

Lemma disciplined_ret {A} (a : A) : disciplined (ret (Net:=Net) a).
Proof. now apply disciplined_silent. Qed.

Lemma disciplined_raise {A} e : disciplined (raise (Net:=Net) (A:=A) e).
Proof. now apply disciplined_silent. Qed.

Lemma disciplined_lift {A} (o : Outcome A) : disciplined (lift (Net:=Net) o).
Proof. now apply disciplined_silent. Qed.

Lemma disciplined_getattr : disciplined (getattr_labels_url (Net:=Net)).
Proof. now apply disciplined_silent. Qed.

Lemma disciplined_setattr v : disciplined (setattr_labels_url (Net:=Net) v).
Proof. now apply disciplined_silent. Qed.

Lemma disciplined_bind {A B} (m : M Net A) (k : A -> M Net B) :
  disciplined m -> (forall a, disciplined (k a)) -> disciplined (bind m k).
Proof.
  intros Dm Dk st. destruct (Dm st) as (new1 & L1 & S1).
  unfold bind. destruct (m st) as [[a|e] st1] eqn:E; cbn [fst snd] in *.
  - destruct S1 as [F1 | (pre & c & r & _ & _ & _ & X)]; [|discriminate].
    destruct (Dk a st1) as (new2 & L2 & S2).
    exists (new1 ++ new2). rewrite L2, L1, app_assoc. split; [reflexivity|].
    destruct S2 as [F2 | (pre & c & r & -> & F2 & R & X)].
    + left. apply Forall_app. now split.
    + right. exists (new1 ++ pre), c, r. rewrite app_assoc.
      repeat split; auto. apply Forall_app. now split.
  - exists new1. split; [exact L1|].
    destruct S1 as [F1 | (pre & c & r & -> & F1 & R & X)]; [now left|].
    right. exists pre, c, r. cbn [fst]. repeat split; auto.
    now injection X as ->.
Qed.

(** One exchange followed by [check_response] and a silent rest. *)
Lemma disciplined_call {A} (c : Call) (k : Response -> M Net A) :
  (forall r st, log (snd (k r st)) = log st) ->
  disciplined (response <- exchange c ;; check_response response ;;; k response).
Proof.
  intros K st. exists [(c, fst (send c (remote st)))].
  unfold bind, exchange.
  destruct (send c (remote st)) as [[r|e] net'] eqn:S; cbn [fst snd].
  - destruct (Z_lt_ge_dec (status r) 300) as [A'|R].
    + rewrite check_response_accepted by assumption.
      rewrite K. cbn. split; [reflexivity|]. left.
      constructor; [exact A'|constructor].
    + assert (R' : 300 <= status r) by lia.
      rewrite check_response_refused by assumption. cbn.
      split; [reflexivity|]. right. exists [], c, r. repeat split; auto.
  - cbn. split; [reflexivity|]. left. constructor; [exact I|constructor].
Qed.

Lemma disciplined_get url : disciplined (get url).
Proof.
  apply disciplined_call. intros r st. unfold response_json.
  now destruct (body r).
Qed.

Lemma disciplined_ext {A} (m m' : M Net A) :
  (forall st, m st = m' st) -> disciplined m -> disciplined m'.
Proof. intros E D st. rewrite <- E. apply D. Qed.

Lemma call_then_check (c : Call) (st : State Net) :
  (response <- exchange c ;; check_response response ;;; ret tt) st =
  (response <- exchange c ;; check_response response) st.
Proof.
  unfold bind. destruct (exchange c st) as [[r|e] st1]; [|reflexivity].
  destruct (check_response r st1) as [[[]|e'] st2]; reflexivity.
Qed.

Lemma disciplined_post url data : disciplined (post url data).
Proof.
  unfold post. eapply disciplined_ext; [apply call_then_check|].
  now apply disciplined_call.
Qed.

Lemma disciplined_delete url : disciplined (delete url).
Proof.
  unfold delete. eapply disciplined_ext; [apply call_then_check|].
  now apply disciplined_call.
Qed.

Ltac discipline :=
  repeat first
    [ apply disciplined_ret
    | apply disciplined_raise
    | apply disciplined_lift
    | apply disciplined_getattr
    | apply disciplined_setattr
    | apply disciplined_get
    | apply disciplined_post
    | apply disciplined_delete
    | apply disciplined_bind; [|intros ?]
    | match goal with
      | |- disciplined (match ?x with _ => _ end) => destruct x
      | |- disciplined (if ?x then _ else _) => destruct x
      end ].

Lemma disciplined_usernames self : disciplined (usernames self).
Proof. unfold usernames. discipline. Qed.

Lemma disciplined_labels_url self label : disciplined (labels_url self label).
Proof. unfold labels_url. discipline. Qed.

Lemma disciplined_current_label self : disciplined (current_label self).
Proof.
  unfold current_label.
  apply disciplined_bind; [apply disciplined_labels_url|intros ?].
  discipline.
Qed.

Lemma disciplined_set_label self s : disciplined (set_label self s).
Proof.
  unfold set_label.
  apply disciplined_bind; [apply disciplined_labels_url|intros ?].
  discipline.
Qed.

Lemma disciplined_remove_label self : disciplined (remove_label self).
Proof.
  unfold remove_label.
  apply disciplined_bind; [apply disciplined_current_label|intros [l|]].
  - apply disciplined_bind; [apply disciplined_labels_url|intros ?].
    discipline.
  - discipline.
Qed.

Lemma disciplined_comment self s : disciplined (comment self s).
Proof. unfold comment. discipline. Qed.

Lemma disciplined_update self s : disciplined (update self s).
Proof.
  unfold update.
  destruct (event self); try apply disciplined_raise.
  - apply disciplined_bind; [apply disciplined_set_label|intros ?].
    discipline.
  - apply disciplined_bind; [apply disciplined_set_label|intros ?].
    apply disciplined_bind; [apply disciplined_comment|intros ?].
    discipline.
  - apply disciplined_bind; [apply disciplined_current_label|intros cur].
    destruct (is_signed s).
    + destruct (label_differs cur CLA_OK); [|discipline].
      apply disciplined_bind; [apply disciplined_remove_label|intros ?].
      discipline.
    + destruct (label_differs cur NO_CLA); [|discipline].
      apply disciplined_bind; [apply disciplined_remove_label|intros ?].
      apply disciplined_bind; [apply disciplined_comment|intros ?].
      discipline.
Qed.

Lemma disciplined_stops {A} (m : M Net A) : disciplined m -> stops_at_refusal m.
Proof.
  intros D st. destruct (D st) as (new & L & S). exists new.
  split; [exact L|]. intros pre c r post E R.
  assert (Bad : ~ accepted (c, Ok r)) by (cbn; lia).
  destruct S as [F | (pre' & c' & r' & E' & F & R' & X)].
  - exfalso. apply Bad. rewrite Forall_forall in F. apply F.
    rewrite E. apply in_or_app. right. now left.
  - destruct post as [|y post] using rev_ind.
    + rewrite E in E'. apply app_inj_tail in E' as [_ [= -> ->]]. now split.
    + exfalso. clear IHpost. rewrite E in E'.
      change (pre ++ (c, Ok r) :: post ++ [y])
        with (pre ++ ((c, Ok r) :: post) ++ [y]) in E'.
      rewrite app_assoc in E'. apply app_inj_tail in E' as [<- _].
      apply Bad. rewrite Forall_forall in F. apply F.
      apply in_or_app. right. now left.
Qed.

(** C9: on GET, POST and DELETE alike, a response of status 300 or more
    makes the call raise the transport error that carries the status,
    after exactly that one exchange; a response below 300 never does.
    [usernames] and [update] make no call after a refused one and end
    with its transport error, so nothing is retried. *)
Theorem transport_error_aborts :
  (forall url (st : State Net) r net',
     send (GET url) (remote st) = (Ok r, net') ->
     (300 <= status r ->
      get url st =
        (Raise (transport_error r), logged st (GET url) (Ok r) net')) /\
     (status r < 300 ->
      forall msg, fst (get url st) <> Raise (HTTPException msg))) /\
  (forall url data (st : State Net) r net',
     let c := POST url data "application/json; charset=utf-8" in
     send c (remote st) = (Ok r, net') ->
     (300 <= status r ->
      post url data st = (Raise (transport_error r), logged st c (Ok r) net')) /\
     (status r < 300 ->
      post url data st = (Ok tt, logged st c (Ok r) net'))) /\
  (forall url (st : State Net) r net',
     send (DELETE url) (remote st) = (Ok r, net') ->
     (300 <= status r ->
      delete url st =
        (Raise (transport_error r), logged st (DELETE url) (Ok r) net')) /\
     (status r < 300 ->
      delete url st = (Ok tt, logged st (DELETE url) (Ok r) net'))) /\
  (forall self, stops_at_refusal (usernames self)) /\
  (forall self s, stops_at_refusal (update self s)).
Proof.
  split; [|split; [|split; [|split]]].
  - intros url st r net' S. split.
    + now apply get_refused.
    + intros A msg. rewrite (get_accepted url st r net') by assumption.
      cbn. destruct (body r); discriminate.
  - intros url data st r net' c S. split.
    + now apply post_refused.
    + now apply post_accepted.
  - intros url st r net' S. split.
    + now apply delete_refused.
    + now apply delete_accepted.
  - intros self. apply disciplined_stops, disciplined_usernames.
  - intros self s. apply disciplined_stops, disciplined_update.
Qed.

End Transport.

(** ** The aggregator *)

Lemma existsb_permutation {A} (f : A -> bool) l l' :
  Permutation.Permutation l l' -> existsb f l = existsb f l'.
Proof.
  induction 1; cbn; try congruence.
  destruct (f x), (f y); reflexivity.
Qed.

(** C4: the reduction gives [username_not_found] as soon as one verdict
    is [username_not_found]; failing that, [not_signed] as soon as one
    verdict is [not_signed]; failing both, [signed], in particular when
    every verdict is [signed].  The order of the verdicts does not
    matter. *)
Theorem reduce_precedence (verdicts : list Status) :
  (In username_not_found verdicts -> reduce verdicts = username_not_found) /\
  (~ In username_not_found verdicts -> In not_signed verdicts ->
   reduce verdicts = not_signed) /\
  (~ In username_not_found verdicts -> ~ In not_signed verdicts ->
   reduce verdicts = signed) /\
  (Forall (eq signed) verdicts -> reduce verdicts = signed) /\
  (forall verdicts', Permutation.Permutation verdicts verdicts' ->
   reduce verdicts' = reduce verdicts) /\
  (forall lookup names,
     verdicts = map lookup names ->
     aggregate lookup names = reduce verdicts).
Proof.
  assert (NF : existsb is_not_found verdicts = true <->
               In username_not_found verdicts).
  { rewrite existsb_exists. split.
    - intros ([] & I & E); try discriminate. exact I.
    - intros I. now exists username_not_found. }
  assert (NS : existsb is_not_signed verdicts = true <->
               In not_signed verdicts).
  { rewrite existsb_exists. split.
    - intros ([] & I & E); try discriminate. exact I.
    - intros I. now exists not_signed. }
  unfold reduce. repeat split;
    try (intros lookup names ->; reflexivity).
  - intros I. apply NF in I. now rewrite I.
  - intros N I. apply NS in I. rewrite I.
    destruct (existsb is_not_found verdicts); [|reflexivity].
    exfalso. now apply N, NF.
  - intros N1 N2.
    destruct (existsb is_not_found verdicts); [exfalso; now apply N1, NF|].
    destruct (existsb is_not_signed verdicts); [exfalso; now apply N2, NS|].
    reflexivity.
  - intros F. rewrite Forall_forall in F.
    destruct (existsb is_not_found verdicts);
      [apply proj1 in NF; specialize (NF eq_refl); apply F in NF;
       discriminate|].
    destruct (existsb is_not_signed verdicts);
      [apply proj1 in NS; specialize (NS eq_refl); apply F in NS;
       discriminate|].
    reflexivity.
  - intros verdicts' P.
    now rewrite <- (existsb_permutation _ _ _ P),
                <- (existsb_permutation _ _ _ P).
Qed.

(** ** Sets *)

Lemma as_number_hashable v q : as_number v = Some q -> hashable v = true.
Proof. destruct v; cbn; congruence. Qed.

Lemma py_eq_refl x : hashable x = true -> py_eq x x = true.
Proof.
  destruct x; cbn; try discriminate; intros _.
  - reflexivity.
  - destruct b; reflexivity.
  - apply Qeq_bool_refl.
  - apply String.eqb_refl.
Qed.

Lemma py_eq_numbers a b :
  py_eq a b = true ->
  (a = JNull /\ b = JNull) \/
  (exists x y, a = JStr x /\ b = JStr y /\ x = y) \/
  (exists p q, as_number a = Some p /\ as_number b = Some q /\
               Qeq_bool p q = true).
Proof.
  destruct a as [|[]|?|?|?|?], b as [|[]|?|?|?|?]; cbn;
    try discriminate; intros E;
    first
      [ left; split; reflexivity
      | right; left; apply String.eqb_eq in E; do 2 eexists;
        repeat split; exact E
      | right; right; do 2 eexists; repeat split;
        first [exact E | reflexivity] ].
Qed.

Lemma py_eq_sym a b : py_eq a b = py_eq b a.
Proof.
  destruct a, b; cbn; try reflexivity;
    repeat match goal with b : bool |- _ => destruct b end;
    try reflexivity; try apply Qeq_bool_comm.
  apply String.eqb_sym.
Qed.

Lemma py_eq_trans a b c :
  py_eq a b = true -> py_eq b c = true -> py_eq a c = true.
Proof.
  intros AB BC.
  destruct (py_eq_numbers _ _ AB) as [(-> & ->) | [(x & y & -> & -> & <-) |
    (p & q & Pa & Pb & E1)]]; try exact BC.
  destruct (py_eq_numbers _ _ BC) as [(-> & ->) | [(x & y & -> & -> & <-) |
    (q' & r & Pb' & Pc & E2)]]; try discriminate.
  rewrite Pb in Pb'. injection Pb' as <-.
  assert (E : Qeq_bool p r = true) by (eapply Qeq_bool_trans; eauto).
  clear AB BC E1 E2 Pb.
  destruct a; cbn in Pa; try discriminate;
    destruct c; cbn in Pc; try discriminate; cbn;
    repeat match goal with b : bool |- _ => destruct b end;
    congruence.
Qed.

Lemma set_in_app x s t : set_in x (s ++ t) = set_in x s || set_in x t.
Proof. apply existsb_app. Qed.

Lemma set_in_eq x y s :
  py_eq x y = true -> set_in y s = true -> set_in x s = true.
Proof.
  intros E I. unfold set_in in *. apply existsb_exists in I as (z & Iz & Ez).
  apply existsb_exists. exists z. split; [exact Iz|].
  eapply py_eq_trans; eauto.
Qed.

(** Adding a hashable value: the members are the old ones and the value. *)
Lemma set_add_spec x s :
  hashable x = true ->
  exists s', set_add x s = Ok s' /\
    (forall y, set_in y s' = set_in y s || py_eq y x) /\
    (distinct s = true -> distinct s' = true).
Proof.
  intros Hx. unfold set_add. rewrite Hx.
  destruct (set_in x s) eqn:I.
  - exists s. repeat split; auto. intros y.
    destruct (py_eq y x) eqn:E; [|now rewrite orb_false_r].
    rewrite orb_true_r. eapply set_in_eq; eauto.
  - exists (s ++ [x]). repeat split.
    + intros y. rewrite set_in_app. cbn. now rewrite orb_false_r.
    + clear Hx. induction s as [|z s IH]; [reflexivity|]. cbn in *.
      apply orb_false_elim in I as [Ez Is].
      intros D. apply andb_prop in D as [Dz Ds].
      rewrite set_in_app, negb_orb, Dz. cbn.
      rewrite orb_false_r, py_eq_sym, Ez. cbn. now apply IH.
Qed.

Lemma getpath_two obj k1 k2 v :
  getpath obj [k1; k2] = Ok v ->
  exists mid, getitem obj k1 = Ok mid /\ getitem mid k2 = Ok v.
Proof.
  cbn. destruct (getitem obj k1) as [mid|]; [|discriminate].
  destruct (getitem mid k2) as [w|] eqn:E; [|discriminate].
  intros [= <-]. eauto.
Qed.

(** ** The contributor resolver *)

Section Resolver.

Context {Net : Type} `{Session Net} `{UrlLib}.

Lemma add_commit_spec logins commit :
  attributed commit ->
  exists logins', add_commit logins commit = Ok logins' /\
    (forall y, set_in y logins' = true <->
       set_in y logins = true \/
       exists role l, In role ["author"; "committer"] /\
         login_of commit role = Ok l /\ py_eq y l = true) /\
    (distinct logins = true -> distinct logins' = true).
Proof.
  intros (a & c & La & Ha & Lc & Hc).
  destruct (getpath_two _ _ _ _ La) as (author & GA & GAL).
  destruct (getpath_two _ _ _ _ Lc) as (committer & GC & GCL).
  destruct (set_add_spec a logins Ha) as (s1 & A1 & M1 & D1).
  destruct (set_add_spec c s1 Hc) as (s2 & A2 & M2 & D2).
  exists s2. unfold add_commit. rewrite GA, GAL, A1, GC, GCL, A2.
  repeat split; auto.
  - rewrite M2, M1. intros I.
    apply orb_prop in I as [I|I]; [apply orb_prop in I as [I|I]|].
    + now left.
    + right. exists "author", a. cbn. auto.
    + right. exists "committer", c. cbn. auto.
  - rewrite M2, M1. intros [I | (role & l & R & L & E)].
    + now rewrite I.
    + destruct R as [<- | [<- | []]].
      * rewrite La in L. injection L as <-. rewrite E.
        now rewrite orb_true_r.
      * rewrite Lc in L. injection L as <-. rewrite E.
        now rewrite orb_true_r.
Qed.

Lemma add_commits_spec commits : forall logins,
  Forall attributed commits ->
  exists logins', add_commits logins commits = Ok logins' /\
    (forall y, set_in y logins' = true <->
       set_in y logins = true \/
       exists commit role l, In commit commits /\
         In role ["author"; "committer"] /\
         login_of commit role = Ok l /\ py_eq y l = true) /\
    (distinct logins = true -> distinct logins' = true).
Proof.
  induction commits as [|commit rest IH]; intros logins F.
  - exists logins. repeat split; auto.
    intros [I | (c & _ & _ & [] & _)]. exact I.
  - inversion F as [|? ? Fc Fr]; subst.
    destruct (add_commit_spec logins commit Fc) as (s1 & A1 & M1 & D1).
    destruct (IH s1 Fr) as (s2 & A2 & M2 & D2).
    exists s2. cbn [add_commits]. rewrite A1. split; [exact A2|].
    split; [|auto]. intros y. rewrite M2, M1. split.
    + intros [[I | (role & l & R & L & E)] | (c & role & l & I & R & L & E)].
      * now left.
      * right. exists commit, role, l. cbn [In]. auto.
      * right. exists c, role, l. cbn [In]. auto.
    + intros [I | (c & role & l & [<- | I] & R & L & E)].
      * auto.
      * left. right. eauto.
      * right. eauto 7.
Qed.

(** [add_commits] only adds: what is in the set stays in it. *)
Lemma add_commits_keeps commits : forall logins logins' x,
  add_commits logins commits = Ok logins' ->
  set_in x logins = true -> set_in x logins' = true.
Proof.
  assert (K : forall v s s' x, set_add v s = Ok s' ->
                set_in x s = true -> set_in x s' = true).
  { intros v s s' x. unfold set_add. destruct (hashable v); [|discriminate].
    destruct (set_in v s); intros [= <-]; auto.
    intros I. rewrite set_in_app, I. reflexivity. }
  induction commits as [|commit rest IH]; intros logins logins' x.
  - cbn. now intros [= <-].
  - cbn [add_commits]. destruct (add_commit logins commit) as [s1|] eqn:A;
      [|discriminate].
    intros R I. apply (IH s1 logins' x R). revert A. unfold add_commit.
    destruct (getitem commit "author") as [a|]; [|discriminate].
    destruct (getitem a "login") as [al|]; [|discriminate].
    destruct (set_add al logins) as [s0|] eqn:A0; [|discriminate].
    destruct (getitem commit "committer") as [c|]; [|discriminate].
    destruct (getitem c "login") as [cl|]; [|discriminate].
    intros A1. eapply K; [exact A1|]. eapply K; [exact A0|exact I].
Qed.

(** C7: when the commit list is fetched and every commit carries its two
    logins, [usernames] returns the set whose members are exactly the
    login of the pull request's author and the author and committer
    logins of the commits, each listed once. *)
Theorem usernames_exact (self : Host) (st : State Net) author url r net'
  commits :
  getpath (request self) ["pull_request"; "user"; "login"] = Ok author ->
  hashable author = true ->
  getpath (request self) ["pull_request"; "commits_url"] = Ok url ->
  send (GET url) (remote st) = (Ok r, net') ->
  status r < 300 ->
  body r = Some (JArr commits) ->
  Forall attributed commits ->
  exists logins,
    usernames self st = (Ok (Frozen logins), logged st (GET url) (Ok r) net') /\
    distinct logins = true /\
    forall x, set_in x logins = true <->
      py_eq x author = true \/
      exists commit role l, In commit commits /\
        In role ["author"; "committer"] /\
        login_of commit role = Ok l /\ py_eq x l = true.
Proof.
  intros PA HA PU S R B F.
  cbn [getpath] in PA, PU.
  destruct (getitem (request self) "pull_request") as [pr|] eqn:P;
    [|discriminate].
  destruct (getitem pr "user") as [user|] eqn:U; [|discriminate].
  destruct (getitem user "login") as [login|] eqn:L; [|discriminate].
  injection PA as ->.
  destruct (getitem pr "commits_url") as [u|] eqn:C; [|discriminate].
  injection PU as ->.
  destruct (add_commits_spec commits [author] F) as (logins & A & M & D).
  exists logins. split; [|split].
  - unfold usernames, bind, lift. rewrite P, U, L.
    unfold set_add at 1. rewrite HA. cbn [set_in existsb app]. rewrite C.
    rewrite (get_accepted url st r net' S R), B. cbn [iterate].
    now rewrite A.
  - now apply D.
  - intros x. rewrite M. cbn [set_in existsb]. rewrite orb_false_r.
    reflexivity.
Qed.

(** C10: whatever [usernames] returns is a frozen set that holds the
    login of the pull request's author, hence is not empty; and when the
    fetch answers with an empty commit list, it returns the set of that
    login alone. *)
Theorem usernames_holds_author (self : Host) (st : State Net) :
  (forall fs st', usernames self st = (Ok fs, st') ->
     exists author,
       getpath (request self) ["pull_request"; "user"; "login"] = Ok author /\
       set_in author (members fs) = true /\ members fs <> []) /\
  (forall author url r net',
     getpath (request self) ["pull_request"; "user"; "login"] = Ok author ->
     hashable author = true ->
     getpath (request self) ["pull_request"; "commits_url"] = Ok url ->
     send (GET url) (remote st) = (Ok r, net') ->
     status r < 300 ->
     body r = Some (JArr []) ->
     usernames self st =
       (Ok (Frozen [author]), logged st (GET url) (Ok r) net')).
Proof.
  split.
  - intros fs st'. unfold usernames, bind, lift. cbn [getpath].
    destruct (getitem (request self) "pull_request") as [pr|];
      [|discriminate].
    destruct (getitem pr "user") as [user|]; [|discriminate].
    destruct (getitem user "login") as [author|]; [|discriminate].
    unfold set_add at 1.
    destruct (hashable author) eqn:HA; [|discriminate].
    cbn [set_in existsb app].
    destruct (getitem pr "commits_url") as [url|]; [|discriminate].
    destruct (get url st) as [[data|] st1]; [|discriminate].
    destruct (iterate data) as [items|]; [|discriminate].
    destruct (add_commits [author] items) as [logins|] eqn:A;
      [|discriminate].
    unfold ret. intros [= <- <-]. exists author. cbn [members].
    assert (I : set_in author logins = true).
    { apply (add_commits_keeps items [author] logins author A).
      cbn. now rewrite py_eq_refl. }
    repeat split; auto. intros ->. discriminate.
  - intros author url r net' PA HA PU S R B.
    unfold usernames, bind, lift.
    cbn [getpath] in PA, PU.
    destruct (getitem (request self) "pull_request") as [pr|];
      [|discriminate].
    destruct (getitem pr "user") as [user|]; [|discriminate].
    destruct (getitem user "login") as [login|]; [|discriminate].
    injection PA as ->.
    destruct (getitem pr "commits_url") as [u|]; [|discriminate].
    injection PU as ->.
    unfold set_add at 1. rewrite HA. cbn [set_in existsb app].
    rewrite (get_accepted url st r net' S R), B. reflexivity.
Qed.

End Resolver.

(** ** Sorting *)

Lemma leb_trans a : forall b c,
  String.leb a b = true -> String.leb b c = true -> String.leb a c = true.
Proof.
  unfold String.leb.
  induction a as [|x a IH]; intros [|y b] [|z c]; cbn; try congruence.
  unfold Ascii.compare.
  destruct (N.compare_spec (N_of_ascii x) (N_of_ascii y)) as [E1|L1|G1];
    try discriminate;
    destruct (N.compare_spec (N_of_ascii y) (N_of_ascii z)) as [E2|L2|G2];
    try discriminate;
    destruct (N.compare_spec (N_of_ascii x) (N_of_ascii z)) as [E3|L3|G3];
    try lia; auto.
  apply IH.
Qed.

Lemma leb_refl a : String.leb a a = true.
Proof. destruct (String.leb_total a a); assumption. Qed.

Lemma insert_sorted_in x y l : In y (insert_sorted x l) <-> y = x \/ In y l.
Proof.
  induction l as [|z l IH]; cbn.
  - intuition.
  - destruct (String.leb x z); cbn; [intuition|]. rewrite IH. intuition.
Qed.

Lemma sorted_in y l : In y (sorted l) <-> In y l.
Proof.
  induction l as [|x l IH]; cbn; [tauto|].
  rewrite insert_sorted_in, IH. intuition.
Qed.

Lemma insert_sorted_headed x l : headed l -> headed (insert_sorted x l).
Proof.
  destruct l as [|h t]; cbn.
  - intros _ y [<- | []]. apply leb_refl.
  - intros Hd. destruct (String.leb x h) eqn:E; cbn.
    + intros y [<- | I]; [apply leb_refl|].
      apply (leb_trans x h y E). now apply Hd.
    + assert (HX : String.leb h x = true).
      { destruct (String.leb_total x h); congruence. }
      intros y [<- | I]; [apply leb_refl|].
      apply insert_sorted_in in I as [-> | I]; [exact HX|].
      apply Hd. now right.
Qed.

Lemma sorted_headed l : headed (sorted l).
Proof.
  induction l as [|x l IH]; [exact I|]. now apply insert_sorted_headed.
Qed.

(** What [first_cla] picks: a CLA-related label that no other
    CLA-related label precedes; or nothing when there is none. *)
Lemma first_cla_some labels l :
  first_cla labels = Some l <->
  In l labels /\ startswith l LABEL_PREFIX = true /\
  forall l', In l' labels -> startswith l' LABEL_PREFIX = true ->
    String.leb l l' = true.
Proof.
  unfold first_cla.
  pose proof (sorted_headed (cla_labels_of labels)) as Hd.
  pose proof (fun y => sorted_in y (cla_labels_of labels)) as In_s.
  unfold cla_labels_of in In_s at 2.
  destruct (sorted (cla_labels_of labels)) as [|h t]; cbn in Hd.
  - split; [discriminate|]. intros (I & P & _). exfalso.
    apply (In_s l). apply filter_In. now split.
  - assert (Hh : In h labels /\ startswith h LABEL_PREFIX = true).
    { apply (proj1 (filter_In _ h labels)), In_s. now left. }
    assert (Hmin : forall l', In l' labels ->
              startswith l' LABEL_PREFIX = true -> String.leb h l' = true).
    { intros l' I P. apply Hd, In_s, filter_In. now split. }
    split.
    + intros [= <-]. destruct Hh. auto.
    + intros (I & P & Min). f_equal. destruct Hh as [Ih Ph].
      apply String.leb_antisym; auto.
Qed.

Lemma first_cla_none labels :
  first_cla labels = None <->
  forall l, In l labels -> startswith l LABEL_PREFIX = false.
Proof.
  unfold first_cla.
  pose proof (fun y => sorted_in y (cla_labels_of labels)) as In_s.
  unfold cla_labels_of in In_s at 2.
  destruct (sorted (cla_labels_of labels)) as [|h t].
  - split; [|reflexivity]. intros _ l I.
    destruct (startswith l LABEL_PREFIX) eqn:P; [|reflexivity].
    exfalso. apply (In_s l), filter_In. now split.
  - split; [discriminate|]. intros N. exfalso.
    assert (Hh : In h labels /\ startswith h LABEL_PREFIX = true).
    { apply (proj1 (filter_In _ h labels)), In_s. now left. }
    destruct Hh as [Ih Ph]. rewrite (N h Ih) in Ph. discriminate.
Qed.

(** ** The reconciler on the GitHub side *)

Lemma mutations_app l1 l2 : mutations (l1 ++ l2) = mutations l1 ++ mutations l2.
Proof. unfold mutations. now rewrite filter_app, map_app. Qed.

Section Reconciler.

Context `{UrlLib}.

Lemma step_trans (st st1 st2 : State GitHub) c1 c2 gh1 gh2 :
  step st st1 c1 gh1 -> step st1 st2 c2 gh2 -> step st st2 (c1 ++ c2) gh2.
Proof.
  intros (R1 & A1 & n1 & L1 & M1) (R2 & A2 & n2 & L2 & M2).
  repeat split; auto. exists (n1 ++ n2).
  rewrite L2, L1, app_assoc, mutations_app, M1, M2. auto.
Qed.

Lemma step_logged (st : State GitHub) c r gh' :
  _labels_url st = Some (JStr (gh_labels_url gh')) ->
  step st (logged st c r gh') (if is_mutation (c, r) then [c] else []) gh'.
Proof.
  intros A. repeat split; auto. exists [(c, r)]. split; [reflexivity|].
  unfold mutations. cbn [filter]. now destruct (is_mutation (c, r)).
Qed.

Lemma get_run url data (st : State GitHub) :
  github_get url (remote st) = respond 200 data ->
  get (JStr url) st =
    (Ok data, logged st (GET (JStr url)) (respond 200 data) (remote st)).
Proof.
  intros G.
  rewrite (get_accepted (JStr url) st {| status := 200; body := Some data |}
             (remote st)); [reflexivity| |cbn; lia].
  cbn. now rewrite G.
Qed.

Lemma labels_url_run self label (st : State GitHub) :
  targets self (remote st) -> attached st ->
  exists st',
    labels_url self label st =
      (format_map (gh_labels_url (remote st))
         match label with
         | Some l => ("/" ++ quote l)%string
         | None => ""%string
         end, st') /\
    step st st' [] (remote st).
Proof.
  intros [TI _] [A|A].
  - destruct (getpath_two _ _ _ _ TI) as (pr & P & I).
    set (data := JObj [("labels_url", JStr (gh_labels_url (remote st)))]).
    assert (G : github_get (gh_issue_url (remote st)) (remote st) =
                respond 200 data).
    { unfold github_get. now rewrite String.eqb_refl. }
    set (st1 := logged st (GET (JStr (gh_issue_url (remote st))))
                  (respond 200 data) (remote st)).
    exists (Build_State (Some (JStr (gh_labels_url (remote st))))
              (remote st1) (log st1)).
    split.
    + unfold labels_url, bind, getattr_labels_url, lift. rewrite A, P, I.
      rewrite (get_run _ data st G). reflexivity.
    + repeat split; auto. exists [(GET (JStr (gh_issue_url (remote st))),
                                    respond 200 data)].
      split; reflexivity.
  - exists st. split.
    + unfold labels_url, bind, getattr_labels_url, ret. now rewrite A.
    + repeat split; auto. exists []. now rewrite app_nil_r.
Qed.

Lemma cla_names_labels labels :
  cla_names (map label_object labels) = Ok (cla_labels_of labels).
Proof.
  induction labels as [|l labels IH]; [reflexivity|].
  cbn [map cla_names]. unfold label_object at 1. cbn [getitem assoc].
  rewrite String.eqb_refl, IH. cbn [cla_labels_of filter].
  now destruct (startswith l LABEL_PREFIX).
Qed.

Lemma current_label_run self (st : State GitHub) :
  well_formed (remote st) -> targets self (remote st) -> attached st ->
  exists st',
    current_label self st = (Ok (first_cla (gh_labels (remote st))), st') /\
    step st st' [] (remote st).
Proof.
  intros W T A.
  destruct (labels_url_run self None st T A) as (st1 & E1 & S1).
  destruct (collection_apart _ W) as (u & C & NI & NC).
  unfold collection_url in C. rewrite C in E1.
  pose proof S1 as (R1 & A1 & _).
  set (data := JArr (map label_object (gh_labels (remote st)))).
  assert (G : github_get u (remote st1) = respond 200 data).
  { rewrite R1. unfold github_get, collection_url.
    rewrite (eqb_neq_false _ _ NI), C. cbn [is_url].
    now rewrite String.eqb_refl. }
  exists (logged st1 (GET (JStr u)) (respond 200 data) (remote st1)).
  split.
  - unfold current_label. rewrite (bind_ok _ _ _ _ _ E1).
    rewrite (bind_ok _ _ _ _ _ (get_run u data st1 G)).
    unfold bind, lift, ret. cbn [iterate data].
    now rewrite cla_names_labels.
  - rewrite <- (app_nil_r []). eapply step_trans; [exact S1|].
    rewrite <- R1. apply (step_logged st1 (GET (JStr u))). now rewrite R1.
Qed.

Lemma post_run url data code answer gh' (st : State GitHub) :
  github_post url data (remote st) = (respond code answer, gh') ->
  code < 300 ->
  post (JStr url) data st =
    (Ok tt, logged st (POST (JStr url) data JSON_UTF8) (respond code answer) gh').
Proof.
  intros G C.
  apply (post_accepted (JStr url) data st
           {| status := code; body := Some answer |} gh'); [|exact C].
  cbn. now rewrite G.
Qed.

Lemma set_label_run self s (st : State GitHub) :
  well_formed (remote st) -> targets self (remote st) -> attached st ->
  exists st' u,
    collection_url (remote st) = Ok u /\
    set_label self s st = (Ok (target s), st') /\
    step st st' [label_post u (target s)]
      (with_labels (remote st)
         (add_labels (gh_labels (remote st)) [target s])).
Proof.
  intros W T A.
  destruct (labels_url_run self None st T A) as (st1 & E1 & S1).
  destruct (collection_apart _ W) as (u & C & NI & NC).
  pose proof C as C'. unfold collection_url in C'. rewrite C' in E1.
  pose proof S1 as (R1 & A1 & _).
  set (labels := add_labels (gh_labels (remote st)) [target s]).
  set (gh' := with_labels (remote st) labels).
  set (answer := JArr (map label_object labels)).
  assert (G : github_post u (JArr [JStr (target s)]) (remote st1) =
              (respond 200 answer, gh')).
  { rewrite R1. unfold github_post. rewrite C. cbn [is_url].
    now rewrite String.eqb_refl. }
  pose proof (post_run u _ 200 answer gh' st1 G ltac:(lia)) as P.
  exists (logged st1 (label_post u (target s)) (respond 200 answer) gh'), u.
  split; [exact C|]. split.
  - unfold set_label. rewrite (bind_ok _ _ _ _ _ E1).
    unfold target in *. destruct (is_signed s);
      now rewrite (bind_ok _ _ _ _ _ P).
  - change [label_post u (target s)] with ([] ++ [label_post u (target s)]).
    eapply step_trans; [exact S1|].
    apply (step_logged st1 (label_post u (target s))). now rewrite A1.
Qed.

Lemma delete_run url code answer gh' (st : State GitHub) :
  github_delete url (remote st) = (respond code answer, gh') ->
  code < 300 ->
  delete (JStr url) st =
    (Ok tt, logged st (DELETE (JStr url)) (respond code answer) gh').
Proof.
  intros G C.
  apply (delete_accepted (JStr url) st
           {| status := code; body := Some answer |} gh'); [|exact C].
  cbn. now rewrite G.
Qed.

Lemma remove_label_run self (st : State GitHub) :
  well_formed (remote st) -> targets self (remote st) -> attached st ->
  let gh := remote st in
  match first_cla (gh_labels gh) with
  | None =>
      exists st', remove_label self st = (Ok None, st') /\ step st st' [] gh
  | Some l =>
      exists st' u,
        label_url gh l = Ok u /\
        remove_label self st = (Ok (Some l), st') /\
        step st st' [label_delete u]
          (with_labels gh (without (Some l) (gh_labels gh)))
  end.
Proof.
  intros W T A. cbv zeta.
  destruct (current_label_run self st W T A) as (st1 & E1 & S1).
  pose proof S1 as (R1 & A1 & _).
  destruct (first_cla (gh_labels (remote st))) as [l|] eqn:F.
  - apply first_cla_some in F as (I & P & Min).
    destruct (labels_expand _ W l I) as (u & U).
    assert (T1 : targets self (remote st1)) by now rewrite R1.
    assert (At1 : attached st1) by (right; now rewrite R1).
    destruct (labels_url_run self (Some l) st1 T1 At1) as (st2 & E2 & S2).
    rewrite R1 in E2, S2.
    assert (U' : format_map (gh_labels_url (remote st))
                   ("/" ++ quote l)%string = Ok u) by exact U.
    rewrite U' in E2.
    pose proof S2 as (R2 & A2 & _).
    set (hit := fun name => is_url (label_url (remote st) name) u).
    assert (Hit : forall name, In name (gh_labels (remote st)) ->
              hit name = String.eqb name l).
    { intros name Iname. unfold hit.
      destruct (String.eqb_spec name l) as [->|N].
      - rewrite U. cbn. apply String.eqb_refl.
      - destruct (labels_expand _ W name Iname) as (v & V). rewrite V. cbn.
        apply eqb_neq_false. intros ->. apply N.
        apply (labels_apart _ W); auto. congruence. }
    set (labels := without (Some l) (gh_labels (remote st))).
    set (gh' := with_labels (remote st) labels).
    set (answer := JArr (map label_object labels)).
    assert (G : github_delete u (remote st2) = (respond 200 answer, gh')).
    { rewrite R2. unfold github_delete. cbv zeta.
      change (fun name => is_url (label_url (remote st) name) u) with hit.
      assert (X : existsb hit (gh_labels (remote st)) = true).
      { apply existsb_exists. exists l. split; [exact I|].
        rewrite (Hit l I). apply String.eqb_refl. }
      rewrite X.
      assert (Y : filter (fun name => negb (hit name)) (gh_labels (remote st))
                  = labels).
      { unfold labels, without. apply filter_ext_in. intros name Iname.
        now rewrite (Hit name Iname). }
      unfold answer, gh'. rewrite <- Y. reflexivity. }
    pose proof (delete_run u 200 answer gh' st2 G ltac:(lia)) as D.
    exists (logged st2 (label_delete u) (respond 200 answer) gh'), u.
    split; [exact U|]. split.
    + unfold remove_label. rewrite (bind_ok _ _ _ _ _ E1).
      rewrite (bind_ok _ _ _ _ _ E2). now rewrite (bind_ok _ _ _ _ _ D).
    + change [label_delete u] with ([] ++ [] ++ [label_delete u]).
      eapply step_trans; [exact S1|]. eapply step_trans; [exact S2|].
      apply (step_logged st2 (label_delete u)). now rewrite A2.
  - exists st1. split; [|exact S1].
    unfold remove_label. now rewrite (bind_ok _ _ _ _ _ E1).
Qed.

Lemma comment_run self s (st : State GitHub) :
  targets self (remote st) ->
  (forall u, collection_url (remote st) = Ok u ->
     u <> gh_comments_url (remote st)) ->
  _labels_url st = Some (JStr (gh_labels_url (remote st))) ->
  let gh := remote st in
  match message_for s with
  | None => comment self s st = (Ok None, st) /\ step st st [] gh
  | Some message =>
      exists st',
        comment self s st = (Ok (Some message), st') /\
        step st st' [comment_post gh message]
          (with_comment gh (JObj [("body", JStr message)]))
  end.
Proof.
  intros [_ TC] NC A. cbv zeta.
  destruct (getpath_two _ _ _ _ TC) as (pr & P & C).
  unfold comment, bind, lift. rewrite P, C.
  destruct (message_for s) as [message|].
  - set (data := JObj [("body", JStr message)]).
    assert (G : github_post (gh_comments_url (remote st)) data (remote st) =
                (respond 201 data, with_comment (remote st) data)).
    { unfold github_post.
      assert (X : is_url (collection_url (remote st)) (gh_comments_url (remote st)) = false).
      { destruct (collection_url (remote st)) as [u|] eqn:U; [|reflexivity]. cbn.
        apply eqb_neq_false. now apply NC. }
      now rewrite X, String.eqb_refl. }
    pose proof (post_run _ data 201 data _ st G ltac:(lia)) as Po.
    exists (logged st (comment_post (remote st) message) (respond 201 data)
              (with_comment (remote st) data)).
    split.
    + unfold post, bind in Po. unfold post, bind.
      change ("application/json; charset=" ++ "utf-8")%string
        with JSON_UTF8 in *.
      destruct (exchange (POST (JStr (gh_comments_url (remote st))) data JSON_UTF8) st)
        as [[r|e] st1]; [|discriminate].
      destruct (check_response r st1) as [[[]|e] st2]; [|discriminate].
      injection Po as ->. reflexivity.
    + apply (step_logged st (comment_post (remote st) message)). exact A.
  - split; [reflexivity|]. repeat split; auto. exists [].
    now rewrite app_nil_r.
Qed.

Lemma with_labels_same gh : with_labels gh (gh_labels gh) = gh.
Proof. now destruct gh. Qed.

Lemma well_formed_with_labels gh labels :
  well_formed gh -> incl labels (gh_labels gh) ->
  well_formed (with_labels gh labels).
Proof.
  intros [C E A] I. split.
  - exact C.
  - intros l Il. apply E. now apply I.
  - intros l l' Il Il'. apply A; now apply I.
Qed.

Lemma well_formed_with_comment gh c :
  well_formed gh -> well_formed (with_comment gh c).
Proof. intros [C E A]. split; assumption. Qed.

Lemma well_formed_after_comment gh s :
  well_formed gh -> well_formed (after_comment gh s).
Proof. destruct s; cbn; auto using well_formed_with_comment. Qed.

Lemma incl_without current labels : incl (without current labels) labels.
Proof.
  destruct current as [l|]; cbn; [|apply incl_refl].
  intros x I. now apply filter_In in I.
Qed.

Lemma label_differs_spec current t :
  label_differs current t = false <-> current = Some t.
Proof.
  destruct current as [l|]; cbn; [|split; discriminate].
  destruct (String.eqb_spec l t) as [->|N]; cbn; split; congruence.
Qed.

Lemma message_for_calls gh s :
  comment_calls gh s =
    match message_for s with
    | Some m => [comment_post gh m]
    | None => []
    end /\
  after_comment gh s =
    match message_for s with
    | Some m => with_comment gh (JObj [("body", JStr m)])
    | None => gh
    end.
Proof. now destruct s. Qed.

(** [update] for the events that set the label. *)
Lemma set_label_then_comment self s (st : State GitHub) :
  well_formed (remote st) -> targets self (remote st) -> attached st ->
  exists st1 st2 u,
    collection_url (remote st) = Ok u /\
    set_label self s st = (Ok (target s), st1) /\
    step st st1 [label_post u (target s)]
      (with_labels (remote st)
         (add_labels (gh_labels (remote st)) [target s])) /\
    (exists o, comment self s st1 = (Ok o, st2)) /\
    step st st2 (label_post u (target s) :: comment_calls (remote st) s)
      (after_comment
         (with_labels (remote st)
            (add_labels (gh_labels (remote st)) [target s])) s).
Proof.
  intros W T A.
  destruct (set_label_run self s st W T A) as (st1 & u & C & E1 & S1).
  pose proof S1 as (R1 & A1 & _).
  destruct (collection_apart _ W) as (u' & C' & _ & NC).
  assert (T1 : targets self (remote st1)) by (rewrite R1; exact T).
  assert (NC1 : forall v, collection_url (remote st1) = Ok v ->
                  v <> gh_comments_url (remote st1)).
  { rewrite R1. intros v V.
    change (collection_url (remote st) = Ok v) in V.
    rewrite C' in V. injection V as <-. exact NC. }
  assert (A1' : _labels_url st1 = Some (JStr (gh_labels_url (remote st1))))
    by now rewrite R1.
  pose proof (comment_run self s st1 T1 NC1 A1') as Cm. cbv zeta in Cm.
  destruct (message_for_calls (remote st1) s) as [MC MA].
  assert (CC : comment_calls (remote st1) s = comment_calls (remote st) s).
  { rewrite R1. now destruct s. }
  destruct (message_for s) as [m|].
  - destruct Cm as (st2 & E2 & S2). exists st1, st2, u.
    refine (conj C (conj E1 (conj S1 (conj (ex_intro _ _ E2) _)))).
    rewrite <- R1, MA, <- CC, MC.
    apply (step_trans _ _ _ _ _ _ _ S1 S2).
  - destruct Cm as (E2 & S2). exists st1, st1, u.
    refine (conj C (conj E1 (conj S1 (conj (ex_intro _ _ E2) _)))).
    rewrite <- R1 at 1. rewrite MA, <- CC, MC, R1. exact S1.
Qed.

(** C3: for an opened event, [update] posts the label for the status
    (CLA_OK when signed, NO_CLA otherwise) to the label collection and
    then the comment for the status, which for [signed] is no call at
    all; for an unlabeled event it posts the label and nothing else. *)
Theorem update_sets_label (self : Host) (s : Status) (st : State GitHub) :
  well_formed (remote st) -> targets self (remote st) -> attached st ->
  let gh := remote st in
  let labelled := with_labels gh (add_labels (gh_labels gh) [target s]) in
  exists u, collection_url gh = Ok u /\
    (event self = opened ->
     exists st', update self s st = (Ok tt, st') /\
       step st st' (label_post u (target s) :: comment_calls gh s)
         (after_comment labelled s)) /\
    (event self = unlabeled ->
     exists st', update self s st = (Ok tt, st') /\
       step st st' [label_post u (target s)] labelled).
Proof.
  intros W T A. cbv zeta.
  destruct (set_label_then_comment self s st W T A)
    as (st1 & st2 & u & C & E1 & S1 & (o & E2) & S2).
  exists u. split; [exact C|]. split; intros Ev.
  - exists st2. split; [|exact S2].
    unfold update. rewrite Ev. rewrite (bind_ok _ _ _ _ _ E1).
    now rewrite (bind_ok _ _ _ _ _ E2).
  - exists st1. split; [|exact S1].
    unfold update. rewrite Ev. now rewrite (bind_ok _ _ _ _ _ E1).
Qed.

(** C8: [remove_label] takes the CLA-related label that no other
    CLA-related label of the pull request precedes in the order of
    strings, issues one DELETE at that label's URL and no other mutating
    call, and returns the label, which is then gone from the pull
    request; when no label is CLA-related it returns [None] and issues
    no mutating call. *)
Theorem remove_label_first (self : Host) (st : State GitHub) :
  well_formed (remote st) -> targets self (remote st) -> attached st ->
  let gh := remote st in
  ((forall l, In l (gh_labels gh) -> startswith l LABEL_PREFIX = false) ->
   exists st', remove_label self st = (Ok None, st') /\ step st st' [] gh) /\
  (forall l,
     In l (gh_labels gh) -> startswith l LABEL_PREFIX = true ->
     (forall l', In l' (gh_labels gh) -> startswith l' LABEL_PREFIX = true ->
        String.leb l l' = true) ->
     exists st' u,
       label_url gh l = Ok u /\
       remove_label self st = (Ok (Some l), st') /\
       step st st' [label_delete u]
         (with_labels gh (without (Some l) (gh_labels gh)))).
Proof.
  intros W T A. cbv zeta.
  pose proof (remove_label_run self st W T A) as R. cbv zeta in R.
  split.
  - intros N. apply first_cla_none in N. now rewrite N in R.
  - intros l I P Min.
    assert (F : first_cla (gh_labels (remote st)) = Some l)
      by (apply first_cla_some; auto).
    now rewrite F in R.
Qed.

(** [update] for a synchronize event. *)
Lemma synchronize_run (self : Host) (s : Status) (st : State GitHub) :
  event self = synchronize ->
  well_formed (remote st) -> targets self (remote st) -> attached st ->
  let gh := remote st in
  let current := first_cla (gh_labels gh) in
  exists st', update self s st = (Ok tt, st') /\
    if label_differs current (target s)
    then step st st' (delete_calls gh current ++ comment_calls gh s)
           (after_comment
              (with_labels gh (without current (gh_labels gh))) s)
    else step st st' [] gh.
Proof.
  intros Ev W T A. cbv zeta.
  destruct (current_label_run self st W T A) as (st1 & E1 & S1).
  pose proof S1 as (R1 & A1 & _).
  assert (W1 : well_formed (remote st1)) by now rewrite R1.
  assert (T1 : targets self (remote st1)) by now rewrite R1.
  assert (At1 : attached st1) by (right; now rewrite R1).
  pose proof (remove_label_run self st1 W1 T1 At1) as Rm. cbv zeta in Rm.
  rewrite R1 in Rm.
  unfold update. rewrite Ev, (bind_ok _ _ _ _ _ E1).
  set (current := first_cla (gh_labels (remote st))) in *.
  assert (Removed : label_differs current (target s) = true ->
    exists st2 o, remove_label self st1 = (Ok o, st2) /\
      step st st2 (delete_calls (remote st) current)
        (with_labels (remote st) (without current (gh_labels (remote st))))).
  { intros _. unfold delete_calls. destruct current as [l|].
    - destruct Rm as (st2 & u & U & E2 & S2). rewrite U.
      exists st2, (Some l). split; [exact E2|].
      apply (step_trans _ _ _ _ _ _ _ S1 S2).
    - destruct Rm as (st2 & E2 & S2). exists st2, None.
      split; [exact E2|]. cbn [without]. rewrite with_labels_same.
      apply (step_trans _ _ _ _ _ _ _ S1 S2). }
  unfold target in *. destruct (is_signed s) eqn:Sg.
  - assert (s = signed) as -> by (now destruct s).
    destruct (label_differs current CLA_OK).
    + destruct (Removed eq_refl) as (st2 & o & E2 & S2).
      exists st2. rewrite (bind_ok _ _ _ _ _ E2).
      split; [reflexivity|]. cbn [comment_calls after_comment].
      now rewrite app_nil_r.
    + exists st1. split; [reflexivity|exact S1].
  - destruct (label_differs current NO_CLA).
    + destruct (Removed eq_refl) as (st2 & o & E2 & S2).
      pose proof S2 as (R2 & A2 & _).
      rewrite (bind_ok _ _ _ _ _ E2).
      assert (T2 : targets self (remote st2)) by (rewrite R2; exact T).
      destruct (collection_apart _ W) as (u' & C' & _ & NC).
      assert (NC2 : forall v, collection_url (remote st2) = Ok v ->
                      v <> gh_comments_url (remote st2)).
      { rewrite R2. intros v V.
        change (collection_url (remote st) = Ok v) in V.
        rewrite C' in V. injection V as <-. exact NC. }
      assert (A2' : _labels_url st2 =
                    Some (JStr (gh_labels_url (remote st2))))
        by now rewrite R2.
      pose proof (comment_run self s st2 T2 NC2 A2') as Cm. cbv zeta in Cm.
      destruct (message_for_calls (remote st2) s) as [MC MA].
      assert (CC : comment_calls (remote st2) s = comment_calls (remote st) s).
      { rewrite R2. now destruct s. }
      destruct (message_for s) as [m|].
      * destruct Cm as (st3 & E3 & S3). exists st3.
        rewrite (bind_ok _ _ _ _ _ E3). split; [reflexivity|].
        rewrite <- R2, MA, <- CC, MC.
        apply (step_trans _ _ _ _ _ _ _ S2 S3).
      * destruct Cm as (E3 & S3). exists st2.
        rewrite (bind_ok _ _ _ _ _ E3). split; [reflexivity|].
        rewrite <- R2 at 1. rewrite MA, <- CC, MC, R2, app_nil_r. exact S2.
    + exists st1. split; [reflexivity|exact S1].
Qed.

(** C1: for a synchronize event, with [current] the label that
    [current_label] reports: when the status is signed and [current] is
    not CLA_OK, [update] deletes [current] (if there is one) and makes no
    other mutating call; when the status is not signed and [current] is
    not NO_CLA, it deletes [current] (if there is one) and then posts the
    comment for the status; when [current] is the label of the status,
    it makes no mutating call and the pull request stays as it is. *)
Theorem synchronize_reconciles (self : Host) (s : Status)
  (st : State GitHub) :
  event self = synchronize ->
  well_formed (remote st) -> targets self (remote st) -> attached st ->
  let gh := remote st in
  let current := first_cla (gh_labels gh) in
  let unlabelled := with_labels gh (without current (gh_labels gh)) in
  fst (current_label self st) = Ok current /\
  exists st', update self s st = (Ok tt, st') /\
    (s = signed -> current <> Some CLA_OK ->
     step st st' (delete_calls gh current) unlabelled) /\
    (s <> signed -> current <> Some NO_CLA ->
     step st st' (delete_calls gh current ++ comment_calls gh s)
       (after_comment unlabelled s)) /\
    (current = Some (target s) -> step st st' [] gh).
Proof.
  intros Ev W T A. cbv zeta.
  destruct (current_label_run self st W T A) as (st0 & E0 & _).
  rewrite E0. split; [reflexivity|].
  destruct (synchronize_run self s st Ev W T A) as (st' & E & S).
  cbv zeta in S. exists st'. split; [exact E|].
  destruct (label_differs (first_cla (gh_labels (remote st))) (target s))
    eqn:D.
  - assert (N : first_cla (gh_labels (remote st)) <> Some (target s)).
    { intros X. apply label_differs_spec in X. congruence. }
    split; [|split].
    + intros -> _. cbn [comment_calls after_comment] in S.
      now rewrite app_nil_r in S.
    + intros _ _. exact S.
    + intros X. contradiction.
  - apply label_differs_spec in D. split; [|split].
    + intros -> X. contradiction.
    + intros Ns X. exfalso. apply X. rewrite D. now destruct s.
    + intros _. exact S.
Qed.

Lemma canonical_after_removal labels :
  canonical labels ->
  first_cla labels <> Some CLA_OK ->
  first_cla (without (first_cla labels) labels) = None \/
  first_cla (without (first_cla labels) labels) = Some CLA_OK.
Proof.
  intros Can N.
  destruct (first_cla labels) as [l|] eqn:F.
  - apply first_cla_some in F as (I & P & _).
    assert (l = NO_CLA) as ->.
    { destruct (Can l I P) as [->|]; [contradiction|assumption]. }
    destruct (first_cla (without (Some NO_CLA) labels)) as [l'|] eqn:F';
      [|now left].
    right. f_equal. apply first_cla_some in F' as (I' & P' & _).
    cbn [without] in I'. apply filter_In in I' as [I' Ne].
    destruct (Can l' I' P') as [->| ->]; [reflexivity|].
    now rewrite String.eqb_refl in Ne.
  - left. exact F.
Qed.

(** C2, as amended: on a pull request whose CLA-related labels are the
    canonical ones, when the status is signed, or when the current label
    is already NO_CLA, a second [update] for a synchronize event right
    after the first makes no mutating call and leaves the pull request as
    the first left it. *)
Theorem synchronize_twice (self : Host) (s : Status) (st : State GitHub) :
  event self = synchronize ->
  well_formed (remote st) -> targets self (remote st) -> attached st ->
  canonical (gh_labels (remote st)) ->
  s = signed \/ first_cla (gh_labels (remote st)) = Some NO_CLA ->
  exists st1 st2,
    update self s st = (Ok tt, st1) /\
    update self s st1 = (Ok tt, st2) /\
    step st1 st2 [] (remote st1).
Proof.
  intros Ev W T A Can Case.
  destruct (synchronize_run self s st Ev W T A) as (st1 & E1 & S1).
  cbv zeta in S1. exists st1.
  assert (Again : forall c gh1,
            step st st1 c gh1 -> remote st1 = gh1 /\ attached st1).
  { intros c gh1 (R & At & _). split; [exact R|right; now rewrite R]. }
  destruct (label_differs (first_cla (gh_labels (remote st))) (target s))
    eqn:D.
  - (* the first run removes the label: the status is signed *)
    assert (s = signed) as ->.
    { destruct Case as [-> | F]; [reflexivity|].
      rewrite F in D. destruct s; [reflexivity| |];
        vm_compute in D; discriminate. }
    cbn [comment_calls after_comment] in S1.
    destruct (Again _ _ S1) as [R1 At1].
    set (labels1 := without (first_cla (gh_labels (remote st)))
                      (gh_labels (remote st))) in *.
    assert (W1 : well_formed (remote st1)).
    { rewrite R1. apply well_formed_with_labels; [exact W|].
      apply incl_without. }
    assert (T1 : targets self (remote st1)) by (rewrite R1; exact T).
    destruct (synchronize_run self signed st1 Ev W1 T1 At1)
      as (st2 & E2 & S2).
    cbv zeta in S2. exists st2. split; [exact E1|]. split; [exact E2|].
    assert (N : first_cla (gh_labels (remote st)) <> Some CLA_OK).
    { intros X. apply label_differs_spec in X.
      change (target signed) with CLA_OK in D. congruence. }
    assert (L1 : gh_labels (remote st1) = labels1) by now rewrite R1.
    rewrite L1 in S2.
    destruct (canonical_after_removal _ Can N) as [F1 | F1];
      fold labels1 in F1; rewrite F1 in S2.
    + cbn [label_differs delete_calls comment_calls after_comment without app]
        in S2.
      rewrite <- L1, with_labels_same in S2. exact S2.
    + change (target signed) with CLA_OK in S2.
      rewrite (proj2 (label_differs_spec (Some CLA_OK) CLA_OK) eq_refl) in S2.
      exact S2.
  - (* the label already stands for the status *)
    destruct (Again _ _ S1) as [R1 At1].
    assert (W1 : well_formed (remote st1)) by now rewrite R1.
    assert (T1 : targets self (remote st1)) by now rewrite R1.
    destruct (synchronize_run self s st1 Ev W1 T1 At1) as (st2 & E2 & S2).
    cbv zeta in S2. rewrite R1, D in S2. rewrite R1.
    exists st2. auto.
Qed.

End Reconciler.

(** ** Further properties of the classifier *)

Lemma py_eq_str a s : py_eq a (JStr s) = true -> a = JStr s.
Proof.
  destruct a as [|[]|?|?|?|?]; cbn; try discriminate.
  intros E. apply String.eqb_eq in E. now subst.
Qed.

Section ClassifierMore.

Context {Net : Type} `{Session Net} `{UrlLib}.

(** X1: [process] never touches the state, whatever the request; and a
    [Host] it returns wraps the decoded body itself, which has no [zen]
    member, carries as [action] the name of the host's event, one of
    opened, unlabeled and synchronize, and for unlabeled names a removed
    label with the CLA prefix. *)
Theorem process_constructs (req : WebRequest) (st : State Net) :
  snd (process req st) = st /\
  forall h, fst (process req st) = Ok h ->
    content_type req = "application/json" /\
    json_body req = Some (request h) /\
    contains (request h) "zen" = Ok false /\
    In (event h) [opened; unlabeled; synchronize] /\
    getitem (request h) "action" = Ok (JStr (value (event h))) /\
    (event h = unlabeled ->
     exists n, getpath (request h) ["label"; "name"] = Ok (JStr n) /\
               startswith n LABEL_PREFIX = true).
Proof.
  unfold process.
  destruct (String.eqb_spec (content_type req) "application/json") as [C|C];
    cbn [negb]; [|split; [reflexivity|discriminate]].
  unfold request_json.
  destruct (json_body req) as [payload|]; [|split; [reflexivity|discriminate]].
  unfold bind, ret, lift, raise.
  destruct (contains payload "zen") as [[|]|] eqn:Z;
    try (split; [reflexivity|discriminate]).
  destruct (getitem payload "action") as [action|] eqn:A;
    [|split; [reflexivity|discriminate]].
  destruct (set_contains action _useful_actions) as [[|]|];
    cbn [negb]; try (split; [reflexivity|discriminate]).
  destruct (py_eq action (JStr (value opened))) eqn:E1.
  { apply py_eq_str in E1. subst. split; [reflexivity|].
    intros h [= <-]. cbn. repeat split; auto. discriminate. }
  destruct (py_eq action (JStr (value unlabeled))) eqn:E2.
  { apply py_eq_str in E2. subst.
    destruct (getitem payload "label") as [l|] eqn:L;
      [|split; [reflexivity|discriminate]].
    destruct (getitem l "name") as [n|] eqn:N;
      [|split; [reflexivity|discriminate]].
    destruct n as [| | |n| |]; cbn [startswith_method];
      try (split; [reflexivity|discriminate]).
    destruct (startswith n LABEL_PREFIX) eqn:P; cbn [negb];
      [|split; [reflexivity|discriminate]].
    split; [reflexivity|]. intros h [= <-]. cbn [request event value].
    repeat split; auto.
    - cbn. auto.
    - intros _. exists n. cbn [getpath]. rewrite L, N. auto. }
  destruct (py_eq action (JStr (value synchronize))) eqn:E3.
  { apply py_eq_str in E3. subst. split; [reflexivity|].
    intros h [= <-]. cbn. repeat split; auto. discriminate. }
  split; [reflexivity|discriminate].
Qed.

(** X2: the fields [process] reads are looked up without a default.  On
    an object without [zen]: a missing [action] raises KeyError for
    [action]; for the action unlabeled, a missing [label] raises KeyError
    for [label], a label object without [name] raises KeyError for
    [name], and a name that is not a string raises AttributeError.  The
    state is left as it was. *)
Theorem process_missing_fields (req : WebRequest) (st : State Net) fields :
  content_type req = "application/json" ->
  json_body req = Some (JObj fields) ->
  assoc "zen" fields = None ->
  (assoc "action" fields = None ->
   process req st = (Raise (KeyError "action"), st)) /\
  (assoc "action" fields = Some (JStr (value unlabeled)) ->
   (assoc "label" fields = None ->
    process req st = (Raise (KeyError "label"), st)) /\
   (forall members,
      assoc "label" fields = Some (JObj members) ->
      (assoc "name" members = None ->
       process req st = (Raise (KeyError "name"), st)) /\
      (forall v, assoc "name" members = Some v ->
         (forall n, v <> JStr n) ->
         process req st = (Raise AttributeError, st)))).
Proof.
  intros C B Z. split.
  - intros A. unfold process, request_json.
    rewrite C, String.eqb_refl, B. cbn [negb].
    unfold bind, ret, lift. cbn [contains getitem]. now rewrite Z, A.
  - intros A. rewrite (process_action req fields _ st C B Z A).
    cbn [value String.eqb Ascii.eqb Bool.eqb]. split.
    + intros L. unfold bind, lift. cbn [getitem]. now rewrite L.
    + intros members L. split.
      * intros N. unfold bind, lift. cbn [getitem]. rewrite L.
        cbn [getitem]. now rewrite N.
      * intros v N NS. unfold bind, lift. cbn [getitem]. rewrite L.
        cbn [getitem]. rewrite N.
        destruct v; try reflexivity. exfalso. now apply (NS s).
Qed.

(** X3: the ping test is a membership test on whatever the body decodes
    to.  A body that does not decode raises the decoder's error; null, a
    boolean or a number raises TypeError; an array is a ping when one of
    its elements is the string zen, a string when it contains zen, and
    both raise TypeError otherwise, at the lookup of [action]. *)
Theorem process_other_bodies (req : WebRequest) (st : State Net) :
  content_type req = "application/json" ->
  fst (process req st) =
    match json_body req with
    | None => Raise JSONDecodeError
    | Some (JNull | JBool _ | JNum _) => Raise TypeError
    | Some (JArr items) =>
        if existsb (py_eq (JStr "zen")) items
        then Raise (ResponseExit NO_CONTENT None)
        else Raise TypeError
    | Some (JStr s) =>
        if contains_str s "zen"
        then Raise (ResponseExit NO_CONTENT None)
        else Raise TypeError
    | Some (JObj fields) => fst (process req st)
    end.
Proof.
  intros C. destruct (json_body req) as [[| | |s|items|fields]|] eqn:B;
    try reflexivity;
    unfold process, request_json; rewrite C, String.eqb_refl, B;
    cbn [negb]; unfold bind, ret, lift, raise; cbn [contains];
    try reflexivity.
  - now destruct (contains_str s "zen").
  - now destruct (existsb (py_eq (JStr "zen")) items).
Qed.

End ClassifierMore.

(** ** The calls each operation makes, on any session *)

Section Calls.

Context {Net : Type} `{Session Net} `{UrlLib}.

Lemma emits_weaken {A} (m : M Net A) (R R' : list Exchange -> Outcome A -> Prop) :
  emits m R -> (forall new out, R new out -> R' new out) -> emits m R'.
Proof.
  intros E W st. destruct (E st) as (new & L & X). exists new. auto.
Qed.

Lemma emits_silent {A} (m : M Net A) :
  (forall st, log (snd (m st)) = log st) ->
  emits m (fun new out => new = []).
Proof. intros S st. exists []. now rewrite app_nil_r. Qed.

Lemma emits_lift {A} (o : Outcome A) :
  emits (lift (Net:=Net) o) (fun new out => new = [] /\ out = o).
Proof. intros st. exists []. now rewrite app_nil_r. Qed.

Lemma emits_bind {A B} (m : M Net A) (k : A -> M Net B) R1 R2 :
  emits m R1 -> (forall a, emits (k a) (R2 a)) ->
  emits (bind m k)
    (fun new out =>
       (exists e, out = Raise e /\ R1 new (Raise e)) \/
       (exists a n1 n2, new = n1 ++ n2 /\ R1 n1 (Ok a) /\ R2 a n2 out)).
Proof.
  intros Em Ek st. destruct (Em st) as (n1 & L1 & X1).
  unfold bind. destruct (m st) as [[a|e] st1]; cbn [fst snd] in *.
  - destruct (Ek a st1) as (n2 & L2 & X2). exists (n1 ++ n2).
    rewrite L2, L1, app_assoc. split; [reflexivity|].
    right. now exists a, n1, n2.
  - exists n1. split; [exact L1|]. left. now exists e.
Qed.

(** One call on the session, followed by [check_response]. *)
Lemma emits_exchange c :
  emits (exchange c) (fun new out => new = [(c, out)]).
Proof.
  intros st. unfold exchange.
  destruct (send c (remote st)) as [r net']. cbn. now exists [(c, r)].
Qed.

Lemma emits_check_response r :
  emits (check_response (Net:=Net) r) (fun new out => new = []).
Proof.
  apply emits_silent. intros st. unfold check_response.
  now destruct (status r >=? 300).
Qed.

Lemma emits_get url :
  emits (get url) (fun new out => exists r, new = [(GET url, r)]).
Proof.
  intros st. unfold get, bind, exchange.
  destruct (send (GET url) (remote st)) as [[r|e] net'];
    [|cbn; exists [(GET url, Raise e)]; split; [reflexivity|];
      now exists (Raise e)].
  unfold check_response, response_json.
  exists [(GET url, Ok r)].
  destruct (status r >=? 300); [cbn; eauto|].
  cbn. destruct (body r); cbn; eauto.
Qed.

Lemma emits_post url data :
  emits (post url data)
    (fun new out => exists r, new = [(POST url data JSON_UTF8, r)]).
Proof.
  intros st. unfold post, bind, exchange.
  change ("application/json; charset=" ++ "utf-8")%string with JSON_UTF8.
  destruct (send (POST url data JSON_UTF8) (remote st)) as [[r|e] net'];
    [|cbn; exists [(POST url data JSON_UTF8, Raise e)];
      split; [reflexivity|]; now exists (Raise e)].
  unfold check_response. exists [(POST url data JSON_UTF8, Ok r)].
  destruct (status r >=? 300); cbn; eauto.
Qed.

Lemma emits_delete url :
  emits (delete url) (fun new out => exists r, new = [(DELETE url, r)]).
Proof.
  intros st. unfold delete, bind, exchange.
  destruct (send (DELETE url) (remote st)) as [[r|e] net'];
    [|cbn; exists [(DELETE url, Raise e)]; split; [reflexivity|];
      now exists (Raise e)].
  unfold check_response. exists [(DELETE url, Ok r)].
  destruct (status r >=? 300); cbn; eauto.
Qed.

(** [labels_url] makes no call, or the one GET of the issue. *)
Lemma emits_labels_url self label :
  emits (labels_url self label)
    (fun new out => new = [] \/ exists url r, new = [(GET url, r)]).
Proof.
  intros st. unfold labels_url, bind, getattr_labels_url, lift, ret.
  destruct (_labels_url st) as [t|].
  - exists []. rewrite app_nil_r. split; [|now left].
    destruct t; cbn; try reflexivity.
  - destruct (getitem (request self) "pull_request") as [pr|];
      [|exists []; rewrite app_nil_r; cbn; auto].
    destruct (getitem pr "issue_url") as [url|];
      [|exists []; rewrite app_nil_r; cbn; auto].
    destruct (emits_get url st) as (new & L & r & ->).
    exists [(GET url, r)]. split; [|right; eauto].
    destruct (get url st) as [[data|e] st1]; cbn [fst snd] in *;
      [|exact L].
    destruct (getitem data "labels_url") as [t|]; [|exact L].
    unfold setattr_labels_url. destruct t; cbn; exact L.
Qed.

Lemma mutations_get url r : mutations [(GET url, r)] = [].
Proof. reflexivity. Qed.

Lemma mutations_nil_app l1 l2 :
  mutations l1 = [] -> mutations l2 = [] -> mutations (l1 ++ l2) = [].
Proof. intros E1 E2. now rewrite mutations_app, E1, E2. Qed.

Lemma emits_labels_url_reads self label :
  emits (labels_url self label) (fun new out => mutations new = []).
Proof.
  eapply emits_weaken; [apply emits_labels_url|].
  intros new out [-> | (url & r & ->)]; reflexivity.
Qed.

(** [current_label] makes at most two calls, both of them GETs. *)
Lemma emits_current_label self :
  emits (current_label self)
    (fun new out => Forall is_get new /\ (length new <= 2)%nat).
Proof.
  unfold current_label.
  eapply emits_weaken.
  { apply emits_bind; [apply emits_labels_url|]. intros url.
    apply emits_bind; [apply emits_get|]. intros data.
    apply emits_silent. intros st. unfold bind, lift, ret.
    destruct (iterate data) as [items|]; [|reflexivity].
    now destruct (cla_names items). }
  cbn beta. intros new out [(e & _ & X) | (u & n1 & n2 & -> & X & Y)].
  - destruct X as [-> | (url & r & ->)].
    + split; [constructor|cbn; lia].
    + split; [|cbn; lia]. constructor; [|constructor]. now exists url.
  - assert (G1 : Forall is_get n1 /\ (length n1 <= 1)%nat).
    { destruct X as [-> | (url & r & ->)].
      - split; [constructor|cbn; lia].
      - split; [|cbn; lia]. constructor; [|constructor]. now exists url. }
    destruct G1 as [F1 L1].
    assert (G2 : Forall is_get n2 /\ (length n2 <= 1)%nat).
    { destruct Y as [(e & _ & r & ->) | (d & m1 & m2 & -> & (r & ->) & ->)].
      - split; [|cbn; lia]. constructor; [|constructor]. now eexists.
      - split; [|cbn; lia]. constructor; [|constructor]. now eexists. }
    destruct G2 as [F2 L2]. split.
    + apply Forall_app. now split.
    + rewrite length_app. lia.
Qed.

Lemma mutations_gets new : Forall is_get new -> mutations new = [].
Proof.
  induction 1 as [|[c r] l (url & E) F IH]; [reflexivity|].
  cbn in E. subst c. exact IH.
Qed.

Lemma emits_current_label_reads self :
  emits (current_label self) (fun new out => mutations new = []).
Proof.
  eapply emits_weaken; [apply emits_current_label|].
  intros new out [F _]. now apply mutations_gets.
Qed.

End Calls.

Section Shapes.

Context {Net : Type} `{Session Net} `{UrlLib}.

Lemma emits_post_ret {A} url data (v : A) :
  emits (post url data ;;; ret v)
    (fun new out =>
       mutations new = [POST url data JSON_UTF8] /\
       (out = Ok v \/ raised out)).
Proof.
  eapply emits_weaken.
  { apply emits_bind; [apply emits_post|]. intros ?.
    apply (emits_lift (Ok v)). }
  cbn beta.
  intros new out [(e & -> & r & ->) | (a & n1 & n2 & -> & (r & ->) & -> & ->)].
  - split; [reflexivity|]. right. now exists e.
  - split; [reflexivity|]. now left.
Qed.

Lemma emits_set_label self s :
  emits (set_label self s)
    (fun new out =>
       (mutations new = [] /\ raised out) \/
       exists u,
         mutations new = [label_post u (target s)] /\
         (out = Ok (target s) \/ raised out)).
Proof.
  assert (E : forall st, set_label self s st =
            (url <- labels_url self None ;;
             post (JStr url) (JArr [JStr (target s)]) ;;; ret (target s)) st).
  { intros st. unfold set_label, target. now destruct (is_signed s). }
  intros st. rewrite E. revert st. fold (emits
    (url <- labels_url self None ;;
     post (JStr url) (JArr [JStr (target s)]) ;;; ret (target s))
    (fun new out =>
       (mutations new = [] /\ raised out) \/
       exists u,
         mutations new = [label_post u (target s)] /\
         (out = Ok (target s) \/ raised out))).
  eapply emits_weaken.
  { apply emits_bind; [apply emits_labels_url_reads|]. intros url.
    apply emits_post_ret. }
  cbn beta.
  intros new out [(e & -> & M) | (u & n1 & n2 & -> & M1 & M2 & O)].
  - left. split; [exact M|]. now exists e.
  - right. exists u. rewrite mutations_app, M1, M2. auto.
Qed.

Lemma emits_remove_label self :
  emits (remove_label self)
    (fun new out =>
       (mutations new = [] /\ (out = Ok None \/ raised out)) \/
       exists u l,
         mutations new = [label_delete u] /\
         (out = Ok (Some l) \/ raised out)).
Proof.
  unfold remove_label.
  eapply emits_weaken.
  { apply emits_bind; [apply emits_current_label_reads|].
    intros cla_label.
    instantiate (1 := fun cla_label new out =>
      match cla_label with
      | None => new = [] /\ out = Ok None
      | Some l =>
          (mutations new = [] /\ raised out) \/
          exists u, mutations new = [label_delete u] /\
                    (out = Ok (Some l) \/ raised out)
      end).
    destruct cla_label as [l|]; [|apply (emits_lift (Ok None))].
    eapply emits_weaken.
    { apply emits_bind; [apply emits_labels_url_reads|]. intros url.
      apply (emits_bind (delete (JStr url)) (fun _ => ret (Some l)));
        [apply emits_delete|].
      intros ?. apply (emits_lift (Ok (Some l))). }
    cbn beta.
    intros new out [(e & -> & M) | (u & n1 & n2 & -> & M1 & D)].
    - left. split; [exact M|]. now exists e.
    - right. exists u. rewrite mutations_app, M1.
      destruct D as [(e & -> & r & ->) |
                     (a & m1 & m2 & -> & (r & ->) & -> & ->)].
      + split; [reflexivity|]. right. now exists e.
      + split; [reflexivity|]. now left. }
  cbn beta.
  intros new out [(e & -> & M) | (cur & n1 & n2 & -> & M1 & X)].
  - left. split; [exact M|]. right. now exists e.
  - destruct cur as [l|].
    + destruct X as [(M2 & R) | (u & M2 & O)].
      * left. rewrite mutations_app, M1, M2. auto.
      * right. exists u, l. rewrite mutations_app, M1, M2. auto.
    + destruct X as [-> ->]. left. rewrite app_nil_r. auto.
Qed.

Lemma emits_comment self s :
  emits (comment self s)
    (fun new out =>
       (new = [] /\ ((out = Ok None /\ message_for s = None) \/ raised out)) \/
       exists url m,
         getpath (request self) ["pull_request"; "comments_url"] = Ok url /\
         message_for s = Some m /\
         mutations new = [POST url (JObj [("body", JStr m)]) JSON_UTF8] /\
         (out = Ok (Some m) \/ raised out)).
Proof.
  intros st. unfold comment, bind, lift. cbn [getpath].
  destruct (getitem (request self) "pull_request") as [pr|e];
    [|exists []; rewrite app_nil_r; split; [reflexivity|];
      left; split; [reflexivity|]; right; now exists e].
  destruct (getitem pr "comments_url") as [url|e];
    [|exists []; rewrite app_nil_r; split; [reflexivity|];
      left; split; [reflexivity|]; right; now exists e].
  destruct (message_for s) as [m|].
  - destruct (emits_post_ret url (JObj [("body", JStr m)]) (Some m) st)
      as (new & L & M & O).
    exists new. split; [exact L|]. right. exists url, m. auto.
  - exists []. rewrite app_nil_r. split; [reflexivity|]. left. auto.
Qed.

(** X4: the label URL template is fetched once.  When [labels_url] has
    returned, the attribute holds the template it expanded, and every
    later call, for whatever label, expands that template without any
    exchange and without changing the state. *)
Theorem labels_url_fetched_once (self : Host) (label : option string)
  (st st' : State Net) (u : string) :
  labels_url self label st = (Ok u, st') ->
  exists t,
    _labels_url st' = Some (JStr t) /\
    format_map t (quoted_label label) = Ok u /\
    forall other,
      labels_url self other st' = (format_map t (quoted_label other), st').
Proof.
  assert (Cached : forall t (s1 : State Net) other,
            _labels_url s1 = Some (JStr t) ->
            labels_url self other s1 =
              (format_map t (quoted_label other), s1)).
  { intros t s1 other C.
    unfold labels_url, bind, getattr_labels_url, ret, lift. now rewrite C. }
  unfold labels_url at 1. unfold bind, getattr_labels_url, ret, lift.
  destruct (_labels_url st) as [t|] eqn:C.
  - destruct t as [| | |t| |]; try discriminate.
    intros [= F <-]. exists t. auto.
  - destruct (getitem (request self) "pull_request") as [pr|];
      [|discriminate].
    destruct (getitem pr "issue_url") as [url|]; [|discriminate].
    destruct (get url st) as [[data|] st1]; [|discriminate].
    destruct (getitem data "labels_url") as [t|]; [|discriminate].
    unfold setattr_labels_url.
    destruct t as [| | |t| |]; try discriminate.
    intros [= F <-]. exists t. cbn [_labels_url]. split; [reflexivity|].
    split; [exact F|]. intros other. now apply Cached.
Qed.

(** X5: whatever the issue resource gives as [labels_url] is stored
    before it is used.  When it is not a string, the call that fetched it
    raises AttributeError with the value stored, and so does every later
    call, without fetching again. *)
Theorem labels_url_bad_template (self : Host) (label : option string)
  (st : State Net) url r net' data t :
  _labels_url st = None ->
  getpath (request self) ["pull_request"; "issue_url"] = Ok url ->
  send (GET url) (remote st) = (Ok r, net') ->
  status r < 300 ->
  body r = Some data ->
  getitem data "labels_url" = Ok t ->
  (forall s, t <> JStr s) ->
  let st' := Build_State (Some t) net' (log st ++ [(GET url, Ok r)]) in
  labels_url self label st = (Raise AttributeError, st') /\
  forall other, labels_url self other st' = (Raise AttributeError, st').
Proof.
  intros C P S R B G N st'.
  assert (Bad : forall o : option string,
            match t with
            | JStr t0 => lift (Net:=Net) (format_map t0 (quoted_label o))
            | _ => raise AttributeError
            end = raise AttributeError).
  { intros o. destruct t; try reflexivity. exfalso. now apply (N s). }
  cbn [getpath] in P.
  destruct (getitem (request self) "pull_request") as [pr|] eqn:GP;
    [|discriminate].
  destruct (getitem pr "issue_url") as [v|] eqn:GI; [|discriminate].
  injection P as ->.
  split.
  - unfold labels_url, getattr_labels_url.
    unfold bind at 1 2. rewrite C.
    unfold bind at 1. unfold lift at 1. rewrite GP.
    unfold bind at 1. unfold lift at 1. rewrite GI.
    unfold bind at 1. rewrite (get_accepted url st r net' S R), B.
    unfold bind at 1. unfold lift at 1. rewrite G.
    unfold bind, setattr_labels_url, ret.
    fold (quoted_label label). now rewrite Bad.
  - intros other. unfold labels_url, bind, getattr_labels_url, ret.
    cbn [_labels_url st']. fold (quoted_label other). now rewrite Bad.
Qed.

(** X6: for an opened event, on any session and whatever fails, the
    mutating calls [update] makes are, in this order, at most one POST of
    the label for the status and at most one POST of the comment for the
    status, the comment only after the label; it never deletes; when it
    returns, the label was posted, and the comment too unless the status
    has none.  For an unlabeled event it makes at most the label POST,
    and has made it when it returns. *)
Theorem update_labels_before_comment (self : Host) (s : Status) :
  (event self = opened ->
   emits (update self s)
     (fun new out =>
        (mutations new = [] /\ raised out) \/
        (exists p, is_label_post s p /\ mutations new = [p] /\
           (raised out \/ (out = Ok tt /\ message_for s = None))) \/
        (exists p c, is_label_post s p /\ is_comment_post s c /\
           mutations new = [p; c] /\ (out = Ok tt \/ raised out)))) /\
  (event self = unlabeled ->
   emits (update self s)
     (fun new out =>
        (mutations new = [] /\ raised out) \/
        (exists p, is_label_post s p /\ mutations new = [p] /\
           (out = Ok tt \/ raised out)))).
Proof.
  split; intros Ev; unfold update; rewrite Ev.
  - eapply emits_weaken.
    { apply emits_bind; [apply emits_set_label|]. intros ?.
      apply (emits_bind (comment self s) (fun _ => ret tt));
        [apply emits_comment|].
      intros ?. apply (emits_lift (Ok tt)). }
    cbn beta.
    intros new out [(e & -> & X) | (l & n1 & n2 & -> & X & Y)].
    + destruct X as [(M & _) | (u & M & _)].
      * left. split; [exact M|]. now exists e.
      * right. left. exists (label_post u (target s)).
        split; [now exists u|]. split; [exact M|]. left. now exists e.
    + destruct X as [(_ & (e & X)) | (u & M1 & _)]; [discriminate|].
      assert (P : is_label_post s (label_post u (target s))) by now exists u.
      destruct Y as [(e & -> & C) | (o & m1 & m2 & -> & C & -> & ->)].
      * destruct C as [(-> & _) | (url & m & _ & Mf & M2 & _)].
        -- right. left. eexists. split; [exact P|].
           rewrite app_nil_r. split; [exact M1|]. left. now exists e.
        -- right. right. eexists. eexists. split; [exact P|].
           split; [now exists url, m|].
           rewrite mutations_app, M1, M2. split; [reflexivity|].
           right. now exists e.
      * rewrite app_nil_r.
        destruct C as [(-> & [(_ & Mf) | (e & X)]) |
                       (url & m & _ & Mf & M2 & _)].
        -- right. left. eexists. split; [exact P|].
           rewrite app_nil_r. auto.
        -- discriminate.
        -- right. right. eexists. eexists. split; [exact P|].
           split; [now exists url, m|].
           rewrite mutations_app, M1, M2. auto.
  - eapply emits_weaken.
    { apply emits_bind; [apply emits_set_label|]. intros ?.
      apply (emits_lift (Ok tt)). }
    cbn beta.
    intros new out [(e & -> & X) | (l & n1 & n2 & -> & X & -> & ->)].
    + destruct X as [(M & _) | (u & M & _)].
      * left. split; [exact M|]. now exists e.
      * right. exists (label_post u (target s)).
        split; [now exists u|]. split; [exact M|]. right. now exists e.
    + rewrite app_nil_r.
      destruct X as [(_ & (e & X)) | (u & M1 & _)]; [discriminate|].
      right. exists (label_post u (target s)).
      split; [now exists u|]. auto.
Qed.

(** X7: for a synchronize event, on any session and whatever fails, the
    mutating calls [update] makes are at most one DELETE of a label
    followed by at most one POST of the comment for the status; it never
    posts a label, and for the status signed it posts nothing at all. *)
Theorem update_synchronize_never_labels (self : Host) (s : Status) :
  event self = synchronize ->
  emits (update self s)
    (fun new out =>
       exists ds cs,
         mutations new = ds ++ cs /\
         (ds = [] \/ exists d, is_label_delete d /\ ds = [d]) /\
         (cs = [] \/
          exists c, is_comment_post s c /\ cs = [c] /\ s <> signed)).
Proof.
  intros Ev. unfold update. rewrite Ev.
  assert (Removal : forall new (out : Outcome (option string)),
            (mutations new = [] /\ (out = Ok None \/ raised out)) \/
            (exists u l, mutations new = [label_delete u] /\
               (out = Ok (Some l) \/ raised out)) ->
            mutations new = [] \/
            exists d, is_label_delete d /\ mutations new = [d]).
  { intros new out [(M & _) | (u & l & M & _)]; [now left|].
    right. exists (label_delete u). split; [now exists u|exact M]. }
  assert (Comment : forall new (out : Outcome (option string)),
            s <> signed ->
            (new = [] /\
             ((out = Ok None /\ message_for s = None) \/ raised out)) \/
            (exists url m,
               getpath (request self) ["pull_request"; "comments_url"]
                 = Ok url /\
               message_for s = Some m /\
               mutations new = [POST url (JObj [("body", JStr m)]) JSON_UTF8] /\
               (out = Ok (Some m) \/ raised out)) ->
            mutations new = [] \/
            exists c, is_comment_post s c /\ mutations new = [c] /\
                      s <> signed).
  { intros new out Ns [(-> & _) | (url & m & _ & Mf & M & _)]; [now left|].
    right. eexists. split; [now exists url, m|]. auto. }
  destruct (is_signed s) eqn:Sg.
  - eapply emits_weaken.
    { apply emits_bind; [apply emits_current_label_reads|]. intros current.
      instantiate (1 := fun current new out =>
        mutations new = [] \/
        exists d, is_label_delete d /\ mutations new = [d]).
      destruct (label_differs current CLA_OK).
      - eapply emits_weaken.
        { apply (emits_bind (remove_label self) (fun _ => ret tt));
            [apply emits_remove_label|].
          intros ?. apply (emits_lift (Ok tt)). }
        cbn beta.
        intros new out [(e & -> & X) | (o & n1 & n2 & -> & X & -> & ->)].
        + eapply Removal, X.
        + rewrite app_nil_r. eapply Removal, X.
      - eapply emits_weaken; [apply (emits_lift (Ok tt))|].
        intros new out [-> _]. now left. }
    cbn beta.
    intros new out [(e & -> & M) | (cur & n1 & n2 & -> & M1 & X)].
    + exists [], []. rewrite M. auto.
    + rewrite mutations_app, M1. cbn [app].
      exists (mutations n2), []. rewrite app_nil_r.
      split; [reflexivity|]. split; [|now left].
      destruct X as [-> | X]; auto.
  - assert (Ns : s <> signed) by (intros ->; discriminate).
    eapply emits_weaken.
    { apply emits_bind; [apply emits_current_label_reads|]. intros current.
      instantiate (1 := fun current new out =>
        exists ds cs,
          mutations new = ds ++ cs /\
          (ds = [] \/ exists d, is_label_delete d /\ ds = [d]) /\
          (cs = [] \/
           exists c, is_comment_post s c /\ cs = [c] /\ s <> signed)).
      destruct (label_differs current NO_CLA).
      - eapply emits_weaken.
        { apply (emits_bind (remove_label self)
                   (fun _ => comment self s ;;; ret tt));
            [apply emits_remove_label|].
          intros ?.
          apply (emits_bind (comment self s) (fun _ => ret tt));
            [apply emits_comment|].
          intros ?. apply (emits_lift (Ok tt)). }
        cbn beta.
        intros new out [(e & -> & X) | (o & n1 & n2 & -> & X & Y)].
        + exists (mutations new), []. rewrite app_nil_r.
          split; [reflexivity|]. split; [|now left].
          destruct (Removal _ _ X) as [-> | D]; auto.
        + exists (mutations n1), (mutations n2).
          split; [apply mutations_app|]. split.
          * destruct (Removal _ _ X) as [-> | D]; auto.
          * destruct Y as [(e & -> & C) | (c & m1 & m2 & -> & C & -> & ->)].
            -- destruct (Comment _ _ Ns C) as [-> | D]; auto.
            -- rewrite app_nil_r.
               destruct (Comment _ _ Ns C) as [-> | D]; auto.
      - eapply emits_weaken; [apply (emits_lift (Ok tt))|].
        intros new out [-> _]. exists [], []. auto. }
    cbn beta.
    intros new out [(e & -> & M) | (cur & n1 & n2 & -> & M1 & X)].
    + exists [], []. rewrite M. auto.
    + rewrite mutations_app, M1. exact X.
Qed.

End Shapes.

Section Reads.

Context {Net : Type} `{Session Net} `{UrlLib}.

Lemma emits_usernames self :
  emits (usernames self)
    (fun new out =>
       new = [] \/
       exists url r,
         getpath (request self) ["pull_request"; "commits_url"] = Ok url /\
         new = [(GET url, r)]).
Proof.
  intros st. unfold usernames, bind, lift, ret. cbn [getpath].
  destruct (getitem (request self) "pull_request") as [pr|];
    [|exists []; rewrite app_nil_r; cbn; auto].
  destruct (getitem pr "user") as [user|];
    [|exists []; rewrite app_nil_r; cbn; auto].
  destruct (getitem user "login") as [login|];
    [|exists []; rewrite app_nil_r; cbn; auto].
  destruct (set_add login []) as [logins|];
    [|exists []; rewrite app_nil_r; cbn; auto].
  destruct (getitem pr "commits_url") as [url|];
    [|exists []; rewrite app_nil_r; cbn; auto].
  destruct (emits_get url st) as (new & L & r & ->).
  exists [(GET url, r)]. split; [|right; eauto].
  destruct (get url st) as [[data|e] st1]; cbn [fst snd] in *; [|exact L].
  destruct (iterate data) as [items|]; [|exact L].
  destruct (add_commits logins items); exact L.
Qed.

Lemma emits_labels_url_issue self label :
  emits (labels_url self label)
    (fun new out =>
       new = [] \/
       exists url r,
         getpath (request self) ["pull_request"; "issue_url"] = Ok url /\
         new = [(GET url, r)]).
Proof.
  intros st. unfold labels_url, bind, getattr_labels_url, lift, ret.
  cbn [getpath].
  destruct (_labels_url st) as [t|].
  - exists []. rewrite app_nil_r. split; [|now left].
    destruct t; cbn; try reflexivity.
  - destruct (getitem (request self) "pull_request") as [pr|];
      [|exists []; rewrite app_nil_r; cbn; auto].
    destruct (getitem pr "issue_url") as [url|];
      [|exists []; rewrite app_nil_r; cbn; auto].
    destruct (emits_get url st) as (new & L & r & ->).
    exists [(GET url, r)]. split; [|right; eauto].
    destruct (get url st) as [[data|e] st1]; cbn [fst snd] in *;
      [|exact L].
    destruct (getitem data "labels_url") as [t|]; [|exact L].
    unfold setattr_labels_url. destruct t; cbn; exact L.
Qed.

(** X8: the three operations that only look things up never make a
    mutating call, on any session and whatever they return: [usernames]
    makes at most one exchange, the GET of the payload's [commits_url];
    [labels_url] at most one, the GET of the payload's [issue_url];
    [current_label] at most two, both of them GETs. *)
Theorem lookups_only_get (self : Host) :
  emits (usernames self)
    (fun new out =>
       new = [] \/
       exists url r,
         getpath (request self) ["pull_request"; "commits_url"] = Ok url /\
         new = [(GET url, r)]) /\
  (forall label,
     emits (labels_url self label)
       (fun new out =>
          new = [] \/
          exists url r,
            getpath (request self) ["pull_request"; "issue_url"] = Ok url /\
            new = [(GET url, r)])) /\
  emits (current_label self)
    (fun new out =>
       Forall is_get new /\ (length new <= 2)%nat /\ mutations new = []).
Proof.
  split; [apply emits_usernames|]. split; [apply emits_labels_url_issue|].
  eapply emits_weaken; [apply emits_current_label|].
  intros new out [F L]. repeat split; auto. now apply mutations_gets.
Qed.

(** X9: the label and comment operations stop at the first refused
    response as [update] does: [labels_url], [current_label],
    [set_label], [remove_label] and [comment] make no call after a
    response of status 300 or more, and raise its transport error. *)
Theorem operations_stop_at_refusal (self : Host) (s : Status) :
  (forall label, stops_at_refusal (labels_url self label)) /\
  stops_at_refusal (current_label self) /\
  stops_at_refusal (set_label self s) /\
  stops_at_refusal (remove_label self) /\
  stops_at_refusal (comment self s).
Proof.
  repeat split; try intros label; apply disciplined_stops.
  - apply disciplined_labels_url.
  - apply disciplined_current_label.
  - apply disciplined_set_label.
  - apply disciplined_remove_label.
  - apply disciplined_comment.
Qed.

(** X10: [comment] looks up [comments_url] before it looks at the
    status.  So for an opened event whose payload lacks [comments_url],
    [update] fails with the KeyError after the label has been set, and
    stays in the state [set_label] left, for every status, the signed
    one included, for which there is nothing to post. *)
Theorem update_opened_without_comments_url (self : Host) (s : Status)
  (st st1 : State Net) l pr :
  event self = opened ->
  set_label self s st = (Ok l, st1) ->
  getitem (request self) "pull_request" = Ok pr ->
  assoc_missing pr "comments_url" ->
  update self s st = (Raise (KeyError "comments_url"), st1).
Proof.
  intros Ev SL P (fields & -> & N).
  unfold update. rewrite Ev, (bind_ok _ _ _ _ _ SL).
  unfold comment, bind, lift. rewrite P. cbn [getitem]. now rewrite N.
Qed.

End Reads.

(** ** Further properties of the contributor resolver *)

Section ResolverMore.

Context {Net : Type} `{Session Net} `{UrlLib}.

Lemma add_commits_app pre rest : forall logins,
  add_commits logins (pre ++ rest) =
    match add_commits logins pre with
    | Ok logins' => add_commits logins' rest
    | Raise e => Raise e
    end.
Proof.
  induction pre as [|c pre IH]; intros logins; [reflexivity|].
  cbn [app add_commits]. destruct (add_commit logins c); [apply IH|reflexivity].
Qed.

Lemma usernames_run (self : Host) (st : State Net) commits :
  commits_fetched self st commits ->
  exists author logins,
    getpath (request self) ["pull_request"; "user"; "login"] = Ok author /\
    fst (usernames self st) = Ok (Frozen logins) /\
    forall x, set_in x logins = true <->
      py_eq x author = true \/
      exists commit role l, In commit commits /\
        In role ["author"; "committer"] /\
        login_of commit role = Ok l /\ py_eq x l = true.
Proof.
  intros (author & url & r & net' & PA & HA & PU & S & R & B & F).
  exists author. pose proof PA as PA'.
  cbn [getpath] in PA, PU.
  destruct (getitem (request self) "pull_request") as [pr|] eqn:P;
    [|discriminate].
  destruct (getitem pr "user") as [user|] eqn:U; [|discriminate].
  destruct (getitem user "login") as [login|] eqn:L; [|discriminate].
  injection PA as ->.
  destruct (getitem pr "commits_url") as [u|] eqn:C; [|discriminate].
  injection PU as ->.
  destruct (add_commits_spec commits [author] F) as (logins & A & M & D).
  exists logins. split; [exact PA'|]. split.
  - unfold usernames, bind, lift. rewrite P, U, L.
    unfold set_add at 1. rewrite HA. cbn [set_in existsb app]. rewrite C.
    rewrite (get_accepted url st r net' S R), B. cbn [iterate].
    now rewrite A.
  - intros x. rewrite M. cbn [set_in existsb]. now rewrite orb_false_r.
Qed.

(** X11: the order of the commits and their repetition do not matter.
    When two fetches for the same payload answer with commit lists that
    hold the same commits, [usernames] returns sets with the same
    members. *)
Theorem usernames_order_irrelevant (self : Host) (st1 st2 : State Net)
  commits1 commits2 :
  commits_fetched self st1 commits1 ->
  commits_fetched self st2 commits2 ->
  (forall c, In c commits1 <-> In c commits2) ->
  exists logins1 logins2,
    fst (usernames self st1) = Ok (Frozen logins1) /\
    fst (usernames self st2) = Ok (Frozen logins2) /\
    forall x, set_in x logins1 = set_in x logins2.
Proof.
  intros F1 F2 Same.
  destruct (usernames_run self st1 commits1 F1) as (a1 & l1 & P1 & E1 & M1).
  destruct (usernames_run self st2 commits2 F2) as (a2 & l2 & P2 & E2 & M2).
  rewrite P1 in P2. injection P2 as <-.
  exists l1, l2. split; [exact E1|]. split; [exact E2|].
  intros x.
  assert (I : set_in x l1 = true <-> set_in x l2 = true).
  { rewrite M1, M2. split.
    - intros [A | (c & role & l & Ic & R)]; [now left|].
      right. exists c, role, l. split; [now apply Same|exact R].
    - intros [A | (c & role & l & Ic & R)]; [now left|].
      right. exists c, role, l. split; [now apply Same|exact R]. }
  destruct (set_in x l1), (set_in x l2); try reflexivity.
  - symmetry. now apply I.
  - now apply I.
Qed.

(** X12: a commit whose [author] is not an object, as GitHub lists it
    when the commit's author has no account ([null]), makes [usernames]
    raise TypeError after the fetch: no set is returned, even if all the
    other commits are attributed. *)
Theorem usernames_unattributed_commit (self : Host) (st : State Net)
  author url r net' pre c post a :
  getpath (request self) ["pull_request"; "user"; "login"] = Ok author ->
  hashable author = true ->
  getpath (request self) ["pull_request"; "commits_url"] = Ok url ->
  send (GET url) (remote st) = (Ok r, net') ->
  status r < 300 ->
  body r = Some (JArr (pre ++ c :: post)) ->
  Forall attributed pre ->
  getitem c "author" = Ok a ->
  (forall fields, a <> JObj fields) ->
  usernames self st = (Raise TypeError, logged st (GET url) (Ok r) net').
Proof.
  intros PA HA PU S R B F GA NA.
  cbn [getpath] in PA, PU.
  destruct (getitem (request self) "pull_request") as [pr|] eqn:P;
    [|discriminate].
  destruct (getitem pr "user") as [user|] eqn:U; [|discriminate].
  destruct (getitem user "login") as [login|] eqn:L; [|discriminate].
  injection PA as ->.
  destruct (getitem pr "commits_url") as [u|] eqn:C; [|discriminate].
  injection PU as ->.
  destruct (add_commits_spec pre [author] F) as (logins & A & _).
  assert (X : add_commits [author] (pre ++ c :: post) = Raise TypeError).
  { rewrite add_commits_app, A. cbn [add_commits]. unfold add_commit.
    rewrite GA.
    assert (G : getitem a "login" = Raise TypeError).
    { destruct a; try reflexivity. exfalso. now apply (NA fields). }
    now rewrite G. }
  unfold usernames, bind, lift. rewrite P, U, L.
  unfold set_add at 1. rewrite HA. cbn [set_in existsb app]. rewrite C.
  rewrite (get_accepted url st r net' S R), B. cbn [iterate].
  now rewrite X.
Qed.

(** X13: the message of the transport error tells the status.  When
    [check_response] raises for one response what it raises for another,
    the two have the same status. *)
Theorem check_response_tells_status (r r' : Response) (st st' : State Net) :
  300 <= status r ->
  fst (check_response r st) = fst (check_response r' st') ->
  status r = status r'.
Proof.
  intros R. rewrite (check_response_refused r st R). unfold check_response.
  destruct (status r' >=? 300); [|discriminate].
  cbn. unfold transport_error. intros [= E].
  unfold str_of_int in E.
  assert (N : forall z, Z.to_int z <> Decimal.Pos Decimal.Nil /\
                        Z.to_int z <> Decimal.Neg Decimal.Nil).
  { intros z. split; intros X; pose proof X as X0;
      apply (f_equal Z.of_int) in X; rewrite DecimalZ.of_to in X;
      cbn in X; subst z; vm_compute in X0; discriminate. }
  apply (f_equal NilZero.int_of_string) in E.
  rewrite !NilZero.isi in E by apply N.
  injection E as E. now apply DecimalZ.to_int_inj.
Qed.

End ResolverMore.

(** ** How the deliveries compose, on the GitHub side *)

Section Deliveries.

Context `{UrlLib}.

Lemma add_labels_one labels t :
  add_labels labels [t] =
    if existsb (String.eqb t) labels then labels else labels ++ [t].
Proof. reflexivity. Qed.

Lemma in_add_labels_one labels t l :
  In l (add_labels labels [t]) <-> In l labels \/ l = t.
Proof.
  rewrite add_labels_one.
  destruct (existsb (String.eqb t) labels) eqn:E.
  - split; [auto|]. intros [I | ->]; [exact I|].
    apply existsb_exists in E as (x & I & X).
    apply String.eqb_eq in X. now subst.
  - rewrite in_app_iff. cbn. intuition.
Qed.

Lemma target_prefixed s : startswith (target s) LABEL_PREFIX = true.
Proof. unfold target. now destruct (is_signed s). Qed.

Lemma no_cla_first : String.leb NO_CLA CLA_OK = true.
Proof. reflexivity. Qed.

Lemma cla_ok_not_first : String.leb CLA_OK NO_CLA = false.
Proof. reflexivity. Qed.

Lemma targets_after gh s labels self :
  targets self gh -> targets self (after_comment (with_labels gh labels) s).
Proof. intros T. now destruct s. Qed.

Lemma redelivered_attached (st : State GitHub) : attached (redelivered st).
Proof. now left. Qed.

(** X14: a synchronize delivery that follows an opened or unlabeled one
    for the same status has nothing to do.  On a pull request without a
    CLA-related label, once [update] for opened or unlabeled has run, a
    new [Host] for synchronize with the same status makes no mutating
    call and leaves the pull request as it found it. *)
Theorem synchronize_after_labelling (first next : Host) (s : Status)
  (st : State GitHub) :
  event first = opened \/ event first = unlabeled ->
  event next = synchronize ->
  targets first (remote st) -> targets next (remote st) ->
  attached st ->
  well_formed (remote st) ->
  well_formed (with_labels (remote st)
                 (add_labels (gh_labels (remote st)) [target s])) ->
  first_cla (gh_labels (remote st)) = None ->
  exists st1 st2,
    update first s st = (Ok tt, st1) /\
    first_cla (gh_labels (remote st1)) = Some (target s) /\
    update next s (redelivered st1) = (Ok tt, st2) /\
    step (redelivered st1) st2 [] (remote st1).
Proof.
  intros Ev1 Ev2 T1 T2 A W W' NoCla.
  destruct (set_label_then_comment first s st W T1 A)
    as (sa & sb & u & C & E1 & S1 & (o & E2) & S2).
  set (labels := add_labels (gh_labels (remote st)) [target s]) in *.
  assert (F : first_cla labels = Some (target s)).
  { apply first_cla_some. split; [|split].
    - apply in_add_labels_one. now right.
    - apply target_prefixed.
    - intros l' I P. apply in_add_labels_one in I as [I | ->].
      + rewrite (proj1 (first_cla_none _) NoCla l' I) in P. discriminate.
      + apply leb_refl. }
  assert (Run : forall st1 gh1,
            update first s st = (Ok tt, st1) ->
            remote st1 = gh1 ->
            gh_labels gh1 = labels ->
            well_formed gh1 -> targets next gh1 ->
            exists st1 st2,
              update first s st = (Ok tt, st1) /\
              first_cla (gh_labels (remote st1)) = Some (target s) /\
              update next s (redelivered st1) = (Ok tt, st2) /\
              step (redelivered st1) st2 [] (remote st1)).
  { intros st1 gh1 E R L Wf Tg.
    assert (Wr : well_formed (remote (redelivered st1)))
      by (cbn [redelivered remote]; now rewrite R).
    assert (Tr : targets next (remote (redelivered st1)))
      by (cbn [redelivered remote]; now rewrite R).
    destruct (synchronize_run next s (redelivered st1) Ev2 Wr Tr
                (redelivered_attached st1)) as (st2 & E' & S').
    cbv zeta in S'. cbn [redelivered remote] in S'.
    rewrite R, L, F in S'.
    rewrite (proj2 (label_differs_spec (Some (target s)) (target s)) eq_refl)
      in S'.
    exists st1, st2. rewrite R, L. repeat split; auto; apply S'. }
  destruct Ev1 as [Ev1 | Ev1].
  - apply (Run sb (after_comment (with_labels (remote st) labels) s)).
    + unfold update. rewrite Ev1, (bind_ok _ _ _ _ _ E1).
      now rewrite (bind_ok _ _ _ _ _ E2).
    + apply S2.
    + now destruct s.
    + now apply well_formed_after_comment.
    + now apply targets_after.
  - apply (Run sa (with_labels (remote st) labels)).
    + unfold update. rewrite Ev1. now rewrite (bind_ok _ _ _ _ _ E1).
    + apply S1.
    + reflexivity.
    + exact W'.
    + exact T2.
Qed.

Lemma incl_add_labels_one labels big t :
  incl labels big -> incl (add_labels labels [t]) (big ++ [t]).
Proof.
  intros I l Il. apply in_add_labels_one in Il as [Il | ->];
    apply in_or_app; [left; now apply I|right; now left].
Qed.

Lemma well_formed_transfer a b :
  gh_issue_url a = gh_issue_url b ->
  gh_labels_url a = gh_labels_url b ->
  gh_comments_url a = gh_comments_url b ->
  gh_labels a = gh_labels b ->
  well_formed a -> well_formed b.
Proof.
  intros EI EL EC ELs [C E Ap].
  unfold collection_url, label_url in *.
  split; unfold collection_url, label_url;
    rewrite <- ?EI, <- ?EL, <- ?EC, <- ?ELs; assumption.
Qed.

(** X15: the unlabeled delivery that a removal sets off completes the
    reconciliation.  On a pull request whose CLA-related labels are the
    canonical ones, after [update] for synchronize and then [update] for
    unlabeled with the same status, each by a new [Host], the label that
    [current_label] reports is the label of the status, and one more
    synchronize delivery makes no mutating call. *)
Theorem unlabeled_completes_synchronize (sync unl : Host) (s : Status)
  (st : State GitHub) :
  event sync = synchronize -> event unl = unlabeled ->
  targets sync (remote st) -> targets unl (remote st) ->
  attached st ->
  canonical (gh_labels (remote st)) ->
  well_formed (remote st) ->
  well_formed (with_labels (remote st)
                 (gh_labels (remote st) ++ [target s])) ->
  exists st1 st2 st3,
    update sync s st = (Ok tt, st1) /\
    update unl s (redelivered st1) = (Ok tt, st2) /\
    first_cla (gh_labels (remote st2)) = Some (target s) /\
    update sync s (redelivered st2) = (Ok tt, st3) /\
    step (redelivered st2) st3 [] (remote st2).
Proof.
  intros EvS EvU TS TU A Can W Wx.
  destruct (synchronize_run sync s st EvS W TS A) as (st1 & E1 & S1).
  cbv zeta in S1.
  set (L := gh_labels (remote st)) in *.
  set (cur := first_cla L) in *.
  (* the pull request after the first delivery *)
  assert (After : exists L1,
            gh_labels (remote st1) = L1 /\ incl L1 L /\
            well_formed (remote st1) /\ targets unl (remote st1) /\
            targets sync (remote st1) /\
            (gh_issue_url (remote st) = gh_issue_url (remote st1) /\
             gh_labels_url (remote st) = gh_labels_url (remote st1) /\
             gh_comments_url (remote st) = gh_comments_url (remote st1)) /\
            (target s = CLA_OK -> ~ In NO_CLA L1)).
  { destruct (label_differs cur (target s)) eqn:D.
    - destruct S1 as (R1 & _). exists (without cur L).
      assert (I : incl (without cur L) L) by apply incl_without.
      rewrite R1. split; [now destruct s|]. split; [exact I|].
      split; [apply well_formed_after_comment;
              now apply well_formed_with_labels|].
      split; [now apply targets_after|]. split; [now apply targets_after|].
      split; [now destruct s|].
      intros Tg In1. rewrite Tg in D.
      destruct cur as [l|] eqn:F; cbn [without] in In1.
      + apply filter_In in In1 as [In1 Ne].
        apply first_cla_some in F as (Il & Pl & _).
        destruct (Can l Il Pl) as [-> | ->].
        * rewrite (proj2 (label_differs_spec (Some CLA_OK) CLA_OK) eq_refl)
            in D. discriminate.
        * now rewrite String.eqb_refl in Ne.
      + assert (P : startswith NO_CLA LABEL_PREFIX = true) by reflexivity.
        rewrite (proj1 (first_cla_none _) F NO_CLA In1) in P. discriminate.
    - destruct S1 as (R1 & _). exists L. rewrite R1.
      split; [reflexivity|]. split; [apply incl_refl|].
      split; [exact W|]. split; [exact TU|]. split; [exact TS|].
      split; [auto|].
      intros Tg In1. apply label_differs_spec in D. rewrite Tg in D.
      apply first_cla_some in D as (_ & _ & Min).
      specialize (Min NO_CLA In1 eq_refl).
      rewrite cla_ok_not_first in Min. discriminate. }
  destruct After as (L1 & EL1 & I1 & W1 & TU1 & TS1 & (UI & UL & UC) & Q).
  (* the unlabeled delivery *)
  destruct (set_label_run unl s (redelivered st1) W1 TU1
              (redelivered_attached st1)) as (st2 & u & _ & E2 & S2).
  cbn [redelivered remote] in S2. rewrite EL1 in S2.
  destruct S2 as (R2 & _).
  assert (F2 : first_cla (add_labels L1 [target s]) = Some (target s)).
  { apply first_cla_some. split; [|split].
    - apply in_add_labels_one. now right.
    - apply target_prefixed.
    - intros l' I P. apply in_add_labels_one in I as [I | ->];
        [|apply leb_refl].
      destruct (Can l' (I1 l' I) P) as [-> | ->].
      + unfold target in *. destruct (is_signed s);
          [apply leb_refl|apply no_cla_first].
      + unfold target in *. destruct (is_signed s); [|apply leb_refl].
        exfalso. now apply Q. }
  assert (W2 : well_formed (remote st2)).
  { assert (X : incl (add_labels L1 [target s]) (L ++ [target s]))
      by now apply incl_add_labels_one.
    pose proof (well_formed_with_labels _ _ Wx X) as Y.
    apply (well_formed_transfer _ _) with (5 := Y); rewrite R2; cbn; auto. }
  assert (TS2 : targets sync (remote st2)) by (rewrite R2; exact TS1).
  assert (Wr : well_formed (remote (redelivered st2))) by exact W2.
  assert (Tr : targets sync (remote (redelivered st2))) by exact TS2.
  destruct (synchronize_run sync s (redelivered st2) EvS Wr Tr
              (redelivered_attached st2)) as (st3 & E3 & S3).
  cbv zeta in S3. cbn [redelivered remote] in S3.
  assert (L2 : gh_labels (remote st2) = add_labels L1 [target s])
    by now rewrite R2.
  rewrite L2, F2 in S3.
  rewrite (proj2 (label_differs_spec (Some (target s)) (target s)) eq_refl)
    in S3.
  exists st1, st2, st3. split; [exact E1|]. split.
  - unfold update. rewrite EvU. now rewrite (bind_ok _ _ _ _ _ E2).
  - rewrite L2. auto.
Qed.

End Deliveries.

(** ** Runs on the demonstration pull request *)

#[local] Existing Instance Py.urllib.

Ltac pick_member I :=
  cbn in I;
  repeat match type of I with
    | _ \/ _ => destruct I as [I|I]
    end;
  try contradiction; subst.

Ltac apart :=
  let E := fresh "E" in
  intro E; first [reflexivity | vm_compute in E; discriminate].

Ltac demo_well_formed :=
  split;
  [ eexists; split; [reflexivity|]; split; apart
  | let l := fresh "l" in let I := fresh "I" in
    intros l I; pick_member I; eexists; reflexivity
  | let l := fresh "l" in let l' := fresh "l" in
    let I := fresh "I" in let I' := fresh "I" in
    intros l l' I I'; pick_member I; pick_member I'; apart ].

Ltac demo_targets := split; reflexivity.

(** C5, as stated, fails: on an object with neither [zen] nor [action],
    [process] neither exits with 204 nor constructs a [Host]; the lookup
    of [action] raises [KeyError].  So the claim fails there whether the
    missing field is read as "not one of the three actions" (204 is
    claimed) or as no reason for "no action" (a [Host] is claimed). *)
Lemma classifier_empty_object :
  fst (process (Demo.delivery "application/json" (JObj [])) (Demo.start []))
    = Raise (KeyError "action") /\
  ~ classified (Demo.delivery "application/json" (JObj [])) (JObj [])
      (Demo.start []).
Proof.
  split; [reflexivity|]. intros [_ C].
  destruct C as (e & E).
  - intros [X | [(a & X & _) | (X & _)]]; discriminate.
  - discriminate.
Qed.

(** An unlabeled delivery for a CLA label is classified, a closed one is
    dropped. *)
Lemma classifier_outcome_witness :
  fst (process (Demo.delivery "application/json" (Demo.payload "unlabeled"))
         (Demo.start []))
    = Ok (Demo.host unlabeled) /\
  fst (process (Demo.delivery "application/json" (Demo.payload "closed"))
         (Demo.start []))
    = Raise (ResponseExit NO_CONTENT None).
Proof.
  split.
  - destruct (classifier_outcome
                (Demo.delivery "application/json" (Demo.payload "unlabeled"))
                (Demo.payload "unlabeled") (Demo.start []))
      as (_ & _ & C).
    + reflexivity.
    + reflexivity.
    + eexists. split; [reflexivity|]. right. eexists.
      split; [reflexivity|]. intros _. eexists. reflexivity.
    + destruct C as (e & _ & A & E).
      * intros [X | [(a & X & N) | (_ & n & X & P)]].
        -- discriminate.
        -- injection X as <-. apply N. cbn. auto.
        -- injection X as <-. discriminate.
      * rewrite E. destruct e; try discriminate. reflexivity.
  - apply (classifier_outcome
             (Demo.delivery "application/json" (Demo.payload "closed"))
             (Demo.payload "closed") (Demo.start [])).
    + reflexivity.
    + reflexivity.
    + eexists. split; [reflexivity|]. right. eexists.
      split; [reflexivity|]. discriminate.
    + right. left. eexists. split; [reflexivity|].
      cbn. intuition discriminate.
Defined.

(** A text/plain delivery is refused with 415. *)
Lemma process_content_type_witness :
  process (Demo.delivery "text/plain" (Demo.payload "opened")) (Demo.start [])
    = (Raise (ResponseExit 415
                (Some "can only accept application/json, not text/plain")),
       Demo.start []).
Proof.
  apply (process_content_type
           (Demo.delivery "text/plain" (Demo.payload "opened"))
           (Demo.start [])).
  discriminate.
Defined.

(** A GET that GitHub answers with 404 raises the transport error. *)
Lemma transport_error_aborts_witness :
  fst (get (JStr "https://api.github.com/nowhere") (Demo.start []))
    = Raise (HTTPException "unexpected response: 404").
Proof.
  destruct (transport_error_aborts (Net:=GitHub)) as (G & _).
  destruct (G (JStr "https://api.github.com/nowhere") (Demo.start [])
              {| status := 404; body := Some JNull |} (Demo.github []))
    as [R _]; [reflexivity|].
  rewrite R; [reflexivity|cbn; lia].
Defined.

(** The spec's example: signed, username_not_found, not_signed. *)
Lemma reduce_precedence_witness :
  reduce [signed; username_not_found; not_signed] = username_not_found.
Proof.
  apply (reduce_precedence [signed; username_not_found; not_signed]).
  cbn. auto.
Defined.

(** Two commits by three people, one of them the author of the pull
    request. *)
Lemma usernames_exact_witness :
  exists logins,
    fst (usernames (Demo.host opened) (Demo.start [])) = Ok (Frozen logins) /\
    distinct logins = true /\
    set_in (JStr "web-flow") logins = true /\
    set_in (JStr "gvanrossum") logins = false.
Proof.
  destruct (usernames_exact (Demo.host opened) (Demo.start [])
              (JStr "brettcannon") (JStr (gh_commits_url (Demo.github [])))
              {| status := 200; body := Some (JArr Demo.two_commits) |}
              (Demo.github []) Demo.two_commits)
    as (logins & E & D & M).
  - reflexivity.
  - reflexivity.
  - reflexivity.
  - reflexivity.
  - cbn. lia.
  - reflexivity.
  - repeat constructor; do 2 eexists; repeat split; reflexivity.
  - exists logins. rewrite E. split; [reflexivity|]. split; [exact D|].
    split.
    + apply M. right. exists (Demo.commit "brettcannon" "web-flow"),
        "committer", (JStr "web-flow").
      cbn. auto 6.
    + destruct (set_in (JStr "gvanrossum") logins) eqn:I; [|reflexivity].
      apply M in I as [X | (c & role & l & Ic & Ir & L & X)].
      * discriminate.
      * unfold Demo.two_commits in Ic. pick_member Ic; pick_member Ir;
          vm_compute in L; injection L as <-; discriminate.
Defined.

(** A pull request without commits: the author alone. *)
Lemma usernames_holds_author_witness :
  usernames (Demo.host opened) Demo.empty_start
    = (Ok (Frozen [JStr "brettcannon"]),
       logged Demo.empty_start
         (GET (JStr (gh_commits_url (Demo.repository [] []))))
         (respond 200 (JArr [])) (Demo.repository [] [])).
Proof.
  apply (usernames_holds_author (Demo.host opened) Demo.empty_start).
  - reflexivity.
  - reflexivity.
  - reflexivity.
  - reflexivity.
  - cbn. lia.
  - reflexivity.
Defined.

(** With both canonical labels on the pull request, NO_CLA comes first
    and is the one deleted. *)
Lemma remove_label_first_witness :
  exists st',
    remove_label (Demo.host synchronize) (Demo.start [CLA_OK; "bug"; NO_CLA])
      = (Ok (Some NO_CLA), st') /\
    mutations (log st') =
      [label_delete
         "https://api.github.com/repos/o/r/issues/1/labels/CLA%3A%20%E2%98%90"] /\
    gh_labels (remote st') = [CLA_OK; "bug"].
Proof.
  destruct (remove_label_first (Demo.host synchronize)
              (Demo.start [CLA_OK; "bug"; NO_CLA])) as [_ R].
  - demo_well_formed.
  - demo_targets.
  - now left.
  - destruct (R NO_CLA) as (st' & u & U & E & St & _ & new & L & M).
    + cbn. auto.
    + reflexivity.
    + intros l' I P. pick_member I; first [reflexivity | discriminate P].
    + exists st'. split; [exact E|]. split.
      * cbn [Demo.start log app] in L. rewrite L, M.
        vm_compute in U. now injection U as <-.
      * now rewrite St.
Defined.

(** The spec's scenario: opened, not signed. *)
Lemma update_sets_label_witness :
  exists st',
    update (Demo.host opened) not_signed (Demo.start ["bug"]) = (Ok tt, st') /\
    mutations (log st') =
      [label_post "https://api.github.com/repos/o/r/issues/1/labels" NO_CLA;
       comment_post (Demo.github []) (NO_CLA_TEMPLATE NO_CLA_BODY)] /\
    gh_labels (remote st') = ["bug"; NO_CLA].
Proof.
  destruct (update_sets_label (Demo.host opened) not_signed
              (Demo.start ["bug"])) as (u & U & O & _).
  - demo_well_formed.
  - demo_targets.
  - now left.
  - destruct (O eq_refl) as (st' & E & St & _ & new & L & M).
    exists st'. split; [exact E|]. split.
    + cbn [Demo.start log app] in L. rewrite L, M.
      vm_compute in U. now injection U as <-.
    + now rewrite St.
Defined.

(** The spec's scenario: synchronize, label CLA_OK, not signed. *)
Lemma synchronize_reconciles_witness :
  exists st',
    update (Demo.host synchronize) not_signed (Demo.start ["bug"; CLA_OK])
      = (Ok tt, st') /\
    mutations (log st') =
      [label_delete
         "https://api.github.com/repos/o/r/issues/1/labels/CLA%3A%20%E2%98%91";
       comment_post (Demo.github []) (NO_CLA_TEMPLATE NO_CLA_BODY)] /\
    gh_labels (remote st') = ["bug"].
Proof.
  destruct (synchronize_reconciles (Demo.host synchronize) not_signed
              (Demo.start ["bug"; CLA_OK])) as (_ & st' & E & _ & N & _).
  - reflexivity.
  - demo_well_formed.
  - demo_targets.
  - now left.
  - destruct N as (St & _ & new & L & M).
    + discriminate.
    + intros X. vm_compute in X. discriminate.
    + exists st'. split; [exact E|]. split.
      * cbn [Demo.start log app] in L. now rewrite L, M.
      * now rewrite St.
Defined.

(** Signed, label NO_CLA: the first run deletes it, the second is idle. *)
Lemma synchronize_twice_witness :
  exists st1 st2 new,
    update (Demo.host synchronize) signed (Demo.start [NO_CLA; "bug"])
      = (Ok tt, st1) /\
    update (Demo.host synchronize) signed st1 = (Ok tt, st2) /\
    log st2 = log st1 ++ new /\ mutations new = [] /\
    remote st2 = remote st1.
Proof.
  destruct (synchronize_twice (Demo.host synchronize) signed
              (Demo.start [NO_CLA; "bug"]))
    as (st1 & st2 & E1 & E2 & R & _ & new & L & M).
  - reflexivity.
  - demo_well_formed.
  - demo_targets.
  - now left.
  - intros l I P. pick_member I; [now right|discriminate P].
  - now left.
  - exists st1, st2, new. auto.
Defined.

(** C2, as stated, fails: with no CLA label on the pull request and a
    status that is not signed, every run for a synchronize event finds
    the label different from NO_CLA and posts the comment; the second run
    posts it a second time.  It also fails for a signed status when the
    pull request carries CLA-related labels other than the canonical
    ones: each run deletes the next of them. *)
Lemma synchronize_comments_again :
  mutations
    (log (snd (update (Demo.host synchronize) not_signed
                 (snd (update (Demo.host synchronize) not_signed
                         (Demo.start []))))))
    = [comment_post (Demo.github []) (NO_CLA_TEMPLATE NO_CLA_BODY);
       comment_post (Demo.github []) (NO_CLA_TEMPLATE NO_CLA_BODY)] /\
  ~ second_run_idle (Demo.host synchronize) not_signed (Demo.start []) /\
  ~ second_run_idle (Demo.host synchronize) signed
      (Demo.start ["CLA: a"; "CLA: b"]).
Proof.
  split; [vm_compute; reflexivity|]. split; intros C.
  destruct (C (snd (update (Demo.host synchronize) not_signed (Demo.start [])))
              (snd (update (Demo.host synchronize) not_signed
                      (snd (update (Demo.host synchronize) not_signed
                              (Demo.start []))))))
    as [_ R].
  - vm_compute. reflexivity.
  - vm_compute. reflexivity.
  - vm_compute in R. discriminate.
  - destruct (C (snd (update (Demo.host synchronize) signed
                        (Demo.start ["CLA: a"; "CLA: b"])))
                (snd (update (Demo.host synchronize) signed
                        (snd (update (Demo.host synchronize) signed
                                (Demo.start ["CLA: a"; "CLA: b"]))))))
      as [_ R].
    + vm_compute. reflexivity.
    + vm_compute. reflexivity.
    + vm_compute in R. discriminate.
Qed.

(** ** Runs for the further properties *)

(** An unlabeled delivery that names no label. *)
Lemma process_missing_fields_witness :
  process (Demo.delivery "application/json" (JObj Cases.unlabeled_fields))
    (Demo.start [])
    = (Raise (KeyError "label"), Demo.start []).
Proof.
  apply (process_missing_fields
           (Demo.delivery "application/json" (JObj Cases.unlabeled_fields))
           (Demo.start []) Cases.unlabeled_fields);
    reflexivity.
Defined.

(** A body that is the array of the one string zen counts as a ping. *)
Lemma process_other_bodies_witness :
  fst (process (Demo.delivery "application/json" (JArr [JStr "zen"]))
         (Demo.start []))
    = Raise (ResponseExit NO_CONTENT None).
Proof.
  apply (process_other_bodies
           (Demo.delivery "application/json" (JArr [JStr "zen"]))
           (Demo.start [])).
  reflexivity.
Defined.

(** After the first expansion the second one makes no exchange. *)
Lemma labels_url_fetched_once_witness :
  exists st',
    labels_url (Demo.host synchronize) None (Demo.start [])
      = (Ok "https://api.github.com/repos/o/r/issues/1/labels", st') /\
    labels_url (Demo.host synchronize) (Some "bug") st'
      = (Ok "https://api.github.com/repos/o/r/issues/1/labels/bug", st').
Proof.
  exists (snd (labels_url (Demo.host synchronize) None (Demo.start []))).
  destruct (labels_url_fetched_once (Demo.host synchronize) None
              (Demo.start [])
              (snd (labels_url (Demo.host synchronize) None (Demo.start [])))
              "https://api.github.com/repos/o/r/issues/1/labels")
    as (t & C & F & Later); [reflexivity|].
  split; [reflexivity|].
  rewrite (Later (Some "bug")). vm_compute in C. injection C as <-.
  reflexivity.
Defined.

(** An issue whose [labels_url] is null. *)
Lemma labels_url_bad_template_witness :
  fst (labels_url (Demo.host synchronize) None Cases.odd_start)
    = Raise AttributeError /\
  fst (labels_url (Demo.host synchronize) (Some "bug")
         (snd (labels_url (Demo.host synchronize) None Cases.odd_start)))
    = Raise AttributeError.
Proof.
  destruct (labels_url_bad_template (Demo.host synchronize) None
              Cases.odd_start
              (JStr (Demo.pr_url ++ "/issues/1")) Cases.null_template []
              (JObj [("labels_url", JNull)]) JNull)
    as [First Later]; try reflexivity.
  - discriminate.
  - rewrite First. split; [reflexivity|]. cbn [snd].
    now rewrite (Later (Some "bug")).
Defined.

(** Synchronize, not signed, label CLA_OK: one DELETE and one comment. *)
Lemma update_synchronize_never_labels_witness :
  exists d c,
    mutations
      (log (snd (update (Demo.host synchronize) not_signed
                   (Demo.start [CLA_OK]))))
      = [d; c] /\
    is_label_delete d /\ is_comment_post not_signed c.
Proof.
  destruct (update_synchronize_never_labels (Demo.host synchronize)
              not_signed eq_refl (Demo.start [CLA_OK]))
    as (new & L & ds & cs & M & D & C).
  cbn [Demo.start log app] in L. rewrite L, M.
  assert (X : mutations new =
              mutations
                (log (snd (update (Demo.host synchronize) not_signed
                             (Demo.start [CLA_OK])))))
    by now rewrite L.
  rewrite M in X.
  destruct D as [-> | (d & Dd & ->)], C as [-> | (c & Cc & -> & _)];
    vm_compute in X; try discriminate.
  exists d, c. auto.
Defined.

(** An opened delivery without [comments_url], status signed: the label
    is set and the update fails. *)
Lemma update_opened_without_comments_url_witness :
  fst (update Cases.bare_host signed (Demo.start []))
    = Raise (KeyError "comments_url") /\
  gh_labels
    (remote (snd (update Cases.bare_host signed (Demo.start []))))
    = [CLA_OK].
Proof.
  rewrite (update_opened_without_comments_url Cases.bare_host signed
             (Demo.start [])
             (snd (set_label Cases.bare_host signed (Demo.start [])))
             CLA_OK
             (JObj [("issue_url", JStr (Demo.pr_url ++ "/issues/1"))])).
  - split; reflexivity.
  - reflexivity.
  - reflexivity.
  - reflexivity.
  - eexists. split; reflexivity.
Defined.

(** The two commits in either order. *)
Lemma usernames_order_irrelevant_witness :
  exists logins1 logins2,
    fst (usernames (Demo.host opened) (Demo.start [])) = Ok (Frozen logins1) /\
    fst (usernames (Demo.host opened)
           (Build_State None
              (Demo.repository (rev Demo.two_commits) []) []))
      = Ok (Frozen logins2) /\
    forall x, set_in x logins1 = set_in x logins2.
Proof.
  apply (usernames_order_irrelevant (Demo.host opened) (Demo.start [])
           (Build_State None (Demo.repository (rev Demo.two_commits) []) [])
           Demo.two_commits (rev Demo.two_commits)).
  - exists (JStr "brettcannon"), (JStr (gh_commits_url (Demo.github []))),
      {| status := 200; body := Some (JArr Demo.two_commits) |},
      (Demo.github []).
    repeat split; try reflexivity.
    repeat constructor; do 2 eexists; repeat split; reflexivity.
  - exists (JStr "brettcannon"), (JStr (gh_commits_url (Demo.github []))),
      {| status := 200; body := Some (JArr (rev Demo.two_commits)) |},
      (Demo.repository (rev Demo.two_commits) []).
    repeat split; try reflexivity.
    repeat constructor; do 2 eexists; repeat split; reflexivity.
  - intros c. apply in_rev.
Defined.

(** A commit by someone without an account, after an attributed one. *)
Lemma usernames_unattributed_commit_witness :
  fst (usernames (Demo.host opened)
         (Build_State None
            (Demo.repository
               [Demo.commit "brettcannon" "web-flow"; Cases.orphan_commit] [])
            []))
    = Raise TypeError.
Proof.
  rewrite (usernames_unattributed_commit (Demo.host opened)
             (Build_State None
                (Demo.repository
                   [Demo.commit "brettcannon" "web-flow"; Cases.orphan_commit]
                   [])
                [])
             (JStr "brettcannon") (JStr (gh_commits_url (Demo.github [])))
             {| status := 200;
                body := Some (JArr [Demo.commit "brettcannon" "web-flow";
                                    Cases.orphan_commit]) |}
             (Demo.repository
                [Demo.commit "brettcannon" "web-flow"; Cases.orphan_commit] [])
             [Demo.commit "brettcannon" "web-flow"] Cases.orphan_commit []
             JNull); try reflexivity.
  - repeat constructor; do 2 eexists; repeat split; reflexivity.
  - discriminate.
Defined.

(** Two responses refused alike have the same status. *)
Lemma check_response_tells_status_witness :
  status {| status := 404; body := None |}
    = status {| status := 404; body := Some JNull |}.
Proof.
  apply (check_response_tells_status
           {| status := 404; body := None |}
           {| status := 404; body := Some JNull |}
           (Demo.start []) (Demo.start [])).
  - cbn. lia.
  - reflexivity.
Defined.

(** Opened and not signed on a pull request without CLA label, then
    synchronize. *)
Lemma synchronize_after_labelling_witness :
  exists st1 st2,
    update (Demo.host opened) not_signed (Demo.start ["bug"]) = (Ok tt, st1) /\
    gh_labels (remote st1) = ["bug"; NO_CLA] /\
    update (Demo.host synchronize) not_signed (redelivered st1)
      = (Ok tt, st2) /\
    remote st2 = remote st1.
Proof.
  destruct (synchronize_after_labelling (Demo.host opened)
              (Demo.host synchronize) not_signed (Demo.start ["bug"]))
    as (st1 & st2 & E1 & F & E2 & R & _).
  - now left.
  - reflexivity.
  - demo_targets.
  - demo_targets.
  - now left.
  - demo_well_formed.
  - demo_well_formed.
  - reflexivity.
  - exists st1, st2. split; [exact E1|]. split; [|split; [exact E2|exact R]].
    assert (X : st1 = snd (update (Demo.host opened) not_signed
                             (Demo.start ["bug"]))) by now rewrite E1.
    rewrite X. reflexivity.
Defined.

(** Label CLA_OK, status not signed: synchronize removes the label, the
    unlabeled delivery sets NO_CLA, and a further synchronize is idle. *)
Lemma unlabeled_completes_synchronize_witness :
  exists st1 st2 st3,
    update (Demo.host synchronize) not_signed (Demo.start [CLA_OK; "bug"])
      = (Ok tt, st1) /\
    update (Demo.host unlabeled) not_signed (redelivered st1) = (Ok tt, st2) /\
    first_cla (gh_labels (remote st2)) = Some NO_CLA /\
    update (Demo.host synchronize) not_signed (redelivered st2)
      = (Ok tt, st3) /\
    remote st3 = remote st2.
Proof.
  destruct (unlabeled_completes_synchronize (Demo.host synchronize)
              (Demo.host unlabeled) not_signed (Demo.start [CLA_OK; "bug"]))
    as (st1 & st2 & st3 & E1 & E2 & F & E3 & R & _).
  - reflexivity.
  - reflexivity.
  - demo_targets.
  - demo_targets.
  - now left.
  - intros l I P. pick_member I; [now left|discriminate P].
  - demo_well_formed.
  - demo_well_formed.
  - exists st1, st2, st3. auto.
Defined.
